(** * brainstorm: the PyCUDA handler (brainstorm/handlers/pycuda_handler.py)

    A shallow embedding of the GPU tensor backend.  Device memory is an
    explicit store of 32-bit float cells, a [GPUArray] is a pointer into
    that store together with a shape, and every handler method is a
    state transformer on the store (in an error monad where the Python
    code can raise). *)

From Stdlib Require Import ZArith List Bool Lia.
From Stdlib Require Import Floats.SpecFloat.
From stdpp Require Import base gmap list strings.

Local Open Scope nat_scope.

(** ** IEEE 754 numbers of the two widths the code uses

    [self.dtype = np.float32] fixes the device dtype; C literals such as
    [1.0] in the kernels are [double].  Both are instances of the
    standard library's executable specification of binary floating point
    (no NaN payload). *)

Abbreviation float32 := spec_float (only parsing).
Abbreviation float64 := spec_float (only parsing).

Module F32.
Definition prec : Z := 24.
Definition emax : Z := 128.

Definition zero : float32 := S754_zero false.
Definition of_Z (n : Z) : float32 := binary_normalize prec emax n 0 false.
Definition one : float32 := Eval vm_compute in of_Z 1.

Definition add : float32 → float32 → float32 := SFadd prec emax.
Definition sub : float32 → float32 → float32 := SFsub prec emax.
Definition mul : float32 → float32 → float32 := SFmul prec emax.
Definition div : float32 → float32 → float32 := SFdiv prec emax.

(** The C comparisons [==], [<] and [>]; all are false on NaN. *)
Definition eqb : float32 → float32 → bool := SFeqb.
Definition ltb : float32 → float32 → bool := SFltb.
Definition gtb (x y : float32) : bool := SFltb y x.

Definition is_nan (x : float32) : bool :=
  match x with S754_nan => true | _ => false end.

(** [fmaxf] and [fminf] of the CUDA math library, with the C99 rule for
    NaN: when exactly one argument is NaN the other one is returned.
    On a tie the first argument is returned. *)
Definition fmaxf (x y : float32) : float32 :=
  if is_nan x then y else if is_nan y then x else
  if SFltb x y then y else x.

Definition fminf (x y : float32) : float32 :=
  if is_nan x then y else if is_nan y then x else
  if SFltb y x then y else x.
End F32.

Module F64.
Definition prec : Z := 53.
Definition emax : Z := 1024.

Definition of_Z (n : Z) : float64 := binary_normalize prec emax n 0 false.
Definition one : float64 := Eval vm_compute in of_Z 1.

Definition add : float64 → float64 → float64 := SFadd prec emax.
Definition sub : float64 → float64 → float64 := SFsub prec emax.
Definition mul : float64 → float64 → float64 := SFmul prec emax.
Definition div : float64 → float64 → float64 := SFdiv prec emax.
End F64.

(** Conversions between the two widths: widening is exact, narrowing
    rounds to nearest-even (and overflows to an infinity). *)
Definition convert (prec emax : Z) (x : spec_float) : spec_float :=
  match x with
  | S754_finite s m e => binary_round prec emax s m e
  | _ => x
  end.

Definition is_finite (x : spec_float) : bool :=
  match x with S754_zero _ | S754_finite _ _ _ => true | _ => false end.

Definition double_of_float : float32 → float64 := convert F64.prec F64.emax.
Definition float_of_double : float64 → float32 := convert F32.prec F32.emax.

(** ** Device memory and device arrays *)

(** Device pointers count 4-byte cells: every buffer of the backend holds
    [float32] elements, so a cell is one element. *)
Definition itemsize : nat := 4.

Record device := Device {
  cells : gmap nat spec_float;   (* contents of device memory *)
  brk : nat                      (* first address never handed out *)
}.

Definition load (d : device) (p : nat) : float32 :=
  default F32.zero (cells d !! p).

Definition store (d : device) (p : nat) (v : float32) : device :=
  {| cells := <[p := v]> (cells d); brk := brk d |}.

(** [write_cells p l d]: the cells [p], [p+1], ... receive the elements
    of [l]. *)
Fixpoint write_cells (p : nat) (l : list float32) (d : device) : device :=
  match l with
  | [] => d
  | v :: l' => write_cells (S p) l' (store d p v)
  end.

Definition read_cells (d : device) (p n : nat) : list float32 :=
  map (λ k, load d (p + k)) (seq 0 n).

(** [pycuda.gpuarray.GPUArray]: a device pointer and a shape.  The dtype
    is [float32] throughout and arrays are C-contiguous. *)
Record GPUArray := {
  gpudata : nat;
  shape : list nat
}.

#[global] Instance GPUArray_eq_dec : EqDecision GPUArray.
Proof. solve_decision. Defined.

(** [np.prod] of a shape. *)
Definition prod (s : list nat) : nat := foldr Nat.mul 1 s.

Definition size (a : GPUArray) : nat := prod (shape a).
Definition mem_size (a : GPUArray) : nat := size a.
Definition nbytes (a : GPUArray) : nat := size a * itemsize.

(** [a[i]] on the flattened array, as the kernels index it. *)
Definition rd (d : device) (a : GPUArray) (i : nat) : float32 :=
  load d (gpudata a + i).

(** The cells an array occupies, and disjointness of two arrays. *)
Definition in_region (a : GPUArray) (p : nat) : Prop :=
  gpudata a ≤ p < gpudata a + size a.

Definition disjoint (a b : GPUArray) : Prop :=
  gpudata a + size a ≤ gpudata b ∨ gpudata b + size b ≤ gpudata a.

(** [gpuarray.zeros(shape)]: a fresh zero-filled array. *)
Definition gpuarray_zeros (s : list nat) (d : device) : GPUArray * device :=
  let a := {| gpudata := brk d; shape := s |} in
  let d' := write_cells (brk d) (replicate (prod s) F32.zero) d in
  (a, {| cells := cells d'; brk := brk d + prod s |}).

(** [x[start:stop]] on a one-dimensional array with
    [start ≤ stop ≤ len]: a view, no data is moved. *)
Definition slice_1d (x : GPUArray) (start stop : nat) : GPUArray :=
  {| gpudata := gpudata x + start; shape := [stop - start] |}.

(** [x.reshape(s)]: a view on the same cells. *)
Definition reshape (x : GPUArray) (s : list nat) : GPUArray :=
  {| gpudata := gpudata x; shape := s |}.

(** ** Launching an elementwise kernel

    [pycuda.elementwise.ElementwiseKernel.__call__] launches one thread
    per flat index [i < n], where [n] is the [mem_size] of the first
    array argument of the call ([repr_vec = vectors[0]]), whatever the
    sizes of the other arguments.  Each thread evaluates the operation at
    its index and performs its single assignment [target[i] = ...].  The
    threads are modelled in lockstep: all of them read the memory as it
    is at launch, then all of them write. *)
Definition elementwise (repr_vec target : GPUArray)
    (operation : device → nat → float32) (d : device) : device :=
  write_cells (gpudata target)
              (map (operation d) (seq 0 (mem_size repr_vec))) d.

(** ** The elementwise kernels

    Each definition carries the C argument list and operation string of
    the [ElementwiseKernel] it embeds; the arguments are in the order of
    the C signature, so the first array among them fixes the launch
    size.  [exp] and [tanh] are the CUDA math library's single-precision
    functions and are left abstract. *)
Section Kernels.
Variable expf : float32 → float32.
Variable tanhf : float32 → float32.

(* "float* x, float* y, float *out" : "out[i] = x[i] * y[i]" *)
Definition mult_kernel (x y out : GPUArray) : device → device :=
  elementwise x out (λ d i, F32.mul (rd d x i) (rd d y i)).

(* "float* x, float* y, float *out" : "out[i] += x[i] * y[i]" *)
Definition mult_add_kernel (x y out : GPUArray) : device → device :=
  elementwise x out
    (λ d i, F32.add (rd d out i) (F32.mul (rd d x i) (rd d y i))).

(* "float x, float* y, float *out" : "out[i] = x * y[i]" *)
Definition mult_st_kernel (x : float32) (y out : GPUArray)
    : device → device :=
  elementwise y out (λ d i, F32.mul x (rd d y i)).

(* "float* x, float* y, float *out" : "out[i] = x[i] + y[i]" *)
Definition add_mm_kernel (x y out : GPUArray) : device → device :=
  elementwise x out (λ d i, F32.add (rd d x i) (rd d y i)).

(* "float x, float* y, float *out" : "out[i] = x + y[i]" *)
Definition add_st_kernel (x : float32) (y out : GPUArray)
    : device → device :=
  elementwise y out (λ d i, F32.add x (rd d y i)).

(* "float* x, float* y, float *out" : "out[i] = x[i] - y[i]" *)
Definition subtract_mm_kernel (x y out : GPUArray) : device → device :=
  elementwise x out (λ d i, F32.sub (rd d x i) (rd d y i)).

(* "float* x, float* y" : "y[i] = 1.0/(1.0 + exp(-1*x[i]))"
   The literals are doubles: the sum and the quotient are computed in
   double precision and the result is narrowed on assignment. *)
Definition sigmoid_kernel (x y : GPUArray) : device → device :=
  elementwise x y
    (λ d i, float_of_double
              (F64.div F64.one
                 (F64.add F64.one
                    (double_of_float
                       (expf (F32.mul (F32.of_Z (-1)) (rd d x i))))))).

(* "float* x, float* y, float* dy, float* dx" :
   "dx[i] = dy[i] * y[i] * (1.0 - y[i])" *)
Definition sigmoid_deriv_kernel (x y dy dx : GPUArray)
    : device → device :=
  elementwise x dx
    (λ d i, float_of_double
              (F64.mul
                 (double_of_float (F32.mul (rd d dy i) (rd d y i)))
                 (F64.sub F64.one (double_of_float (rd d y i))))).

(* "float* x, float* y" : "y[i] = tanh(x[i])" *)
Definition tanh_kernel (x y : GPUArray) : device → device :=
  elementwise x y (λ d i, tanhf (rd d x i)).

(* "float* x, float* y, float* dy, float* dx" :
   "dx[i] = dy[i] * (1.0 - y[i] * y[i])" *)
Definition tanh_deriv_kernel (x y dy dx : GPUArray) : device → device :=
  elementwise x dx
    (λ d i, float_of_double
              (F64.mul
                 (double_of_float (rd d dy i))
                 (F64.sub F64.one
                    (double_of_float (F32.mul (rd d y i) (rd d y i)))))).

(* "float* x, float* y" : "if (x[i]>0) y[i] = x[i]; else y[i]=0.0;" *)
Definition rel_kernel (x y : GPUArray) : device → device :=
  elementwise x y
    (λ d i, if F32.gtb (rd d x i) (F32.of_Z 0) then rd d x i
            else F32.zero).

(* "float* x, float* y, float* dy, float* dx" :
   "if (y[i]>0) dx[i] = dy[i]; else dx[i]=0.0;" *)
Definition rel_deriv_kernel (x y dy dx : GPUArray) : device → device :=
  elementwise x dx
    (λ d i, if F32.gtb (rd d y i) (F32.of_Z 0) then rd d dy i
            else F32.zero).

(* "float* a, float* out, float a_min, float a_max" :
   "out[i] = fminf(fmaxf(a[i], a_min), a_max);" *)
Definition clip_kernel (a out : GPUArray) (a_min a_max : float32)
    : device → device :=
  elementwise a out
    (λ d i, F32.fminf (F32.fmaxf (rd d a i) a_min) a_max).

(* "float* a, float* b, float* out" : "out[i] = a[i] / b[i];" *)
Definition div_kernel (a b out : GPUArray) : device → device :=
  elementwise a out (λ d i, F32.div (rd d a i) (rd d b i)).

(* "float* out, float* v, int nrows, int ncols" :
   "out[i] = v[i/ncols] == (i % ncols) ? 1.0f : 0.0f"
   The column index is converted to float for the comparison. *)
Definition binarize_v_kernel (out v : GPUArray) (nrows ncols : nat)
    : device → device :=
  elementwise out out
    (λ d i, if F32.eqb (rd d v (i / ncols))
                       (F32.of_Z (Z.of_nat (i mod ncols)))
            then F32.one else F32.zero).
End Kernels.

(** ** Python exceptions and the monad of handler methods *)

(** The message of a failed [assert]. *)
Inductive assert_msg :=
| NoMessage
| ShapeMessage (destination source : list nat).
  (* "Shape of destination ({}) != Shape of source ({})" *)

Inductive exn :=
| AssertionError (msg : assert_msg)
| NotImplementedError
| NameError (name : string)
| AttributeError (name : string)
| IndexError
| ValueError.

Inductive result (A : Type) :=
| Ok (a : A)
| Raise (e : exn).
Arguments Ok {A} a.
Arguments Raise {A} e.

(** A computation over a state [S] that returns or raises; the state
    changes made before a [raise] stay. *)
Definition py (S A : Type) : Type := S → result A * S.

Definition ret {S A} (a : A) : py S A := λ s, (Ok a, s).

Definition bind {S A B} (c : py S A) (k : A → py S B) : py S B :=
  λ s, match c s with
       | (Ok a, s') => k a s'
       | (Raise e, s') => (Raise e, s')
       end.

Definition raise {S A} (e : exn) : py S A := λ s, (Raise e, s).

Definition assert_ {S} (b : bool) (msg : assert_msg) : py S unit :=
  if b then ret tt else raise (AssertionError msg).

(** A kernel launch or driver call that cannot raise. *)
Definition run {S} (f : S → S) : py S unit := λ s, (Ok tt, f s).

Notation "x <- c ;; k" := (bind c (λ x, k))
  (at level 100, c at next level, right associativity).
Notation "c ;; k" := (bind c (λ _, k))
  (at level 100, right associativity).

Definition is_raise {A} (r : result A) : Prop :=
  match r with Raise _ => True | Ok _ => False end.

(** ** Host arrays *)

Inductive dtype := np_float32 | np_float64.

#[global] Instance dtype_eq_dec : EqDecision dtype.
Proof. solve_decision. Defined.

(** A [numpy.ndarray] of floating-point numbers: the elements are kept in
    row-major order, [nd_data] has [prod nd_shape] elements. *)
Record ndarray := {
  nd_dtype : dtype;
  nd_shape : list nat;
  nd_data : list spec_float
}.

Definition nd_wf (x : ndarray) : Prop :=
  length (nd_data x) = prod (nd_shape x).

(** [arr.astype(np.float32)]. *)
Definition astype_float32 (arr : ndarray) : ndarray :=
  {| nd_dtype := np_float32;
     nd_shape := nd_shape arr;
     nd_data := match nd_dtype arr with
                | np_float32 => nd_data arr
                | np_float64 => map float_of_double (nd_data arr)
                end |}.

(** Every element is a finite number (no infinity, no NaN). *)
Definition nd_finite (x : ndarray) : Prop :=
  Forall (λ v, is_finite v = true) (nd_data x).

(** [numpy]'s [(x == y).all()] on arrays of one shape. *)
Fixpoint all_eqb (l1 l2 : list spec_float) : bool :=
  match l1, l2 with
  | [], [] => true
  | a :: l1', b :: l2' => SFeqb a b && all_eqb l1' l2'
  | _, _ => false
  end.

Definition array_equal (x y : ndarray) : bool :=
  bool_decide (nd_shape x = nd_shape y) && all_eqb (nd_data x) (nd_data y).

(** The objects a handler method can be handed as a buffer. *)
Inductive pyobject :=
| PyGPUArray (a : GPUArray)
| PyNdarray (x : ndarray)
| PyNone.

(** ** Driver and [GPUArray] primitives *)

(** [drv.memcpy_dtod(dest, src, size)]: [size] bytes from [src] to
    [dest]; the byte counts of this backend are multiples of
    [itemsize].  The source cells are read before any cell is
    written. *)
Definition memcpy_dtod (dest src count : nat) (d : device) : device :=
  write_cells dest (read_cells d src (count / itemsize)) d.

(** [drv.memcpy_htod(dest, ary)]. *)
Definition memcpy_htod (dest : nat) (ary : ndarray) (d : device) : device :=
  write_cells dest (nd_data ary) d.

(** [GPUArray.set(ary)] and [GPUArray.get()]. *)
Definition GPUArray_set (a : GPUArray) (ary : ndarray) : device → device :=
  memcpy_htod (gpudata a) ary.

Definition GPUArray_get (a : GPUArray) (d : device) : ndarray :=
  {| nd_dtype := np_float32;
     nd_shape := shape a;
     nd_data := read_cells d (gpudata a) (size a) |}.

(** [gpuarray.to_gpu(ary)]: a fresh array of [ary]'s shape, then [set]. *)
Definition gpuarray_to_gpu (ary : ndarray) : py device GPUArray :=
  λ d,
    let a := {| gpudata := brk d; shape := nd_shape ary |} in
    let d' := {| cells := cells d; brk := brk d + size a |} in
    (Ok a, GPUArray_set a ary d').

(** ** The handler: memory operations *)

(** [allocate(size)] and [zeros(shape)]: [gpuarray.zeros]. *)
Definition allocate (s : list nat) : py device GPUArray :=
  λ d, let '(a, d') := gpuarray_zeros s d in (Ok a, d').

Definition zeros (s : list nat) : py device GPUArray :=
  λ d, let '(a, d') := gpuarray_zeros s d in (Ok a, d').

(** [fill(mem, val)]: [mem.fill(val)]. *)
Definition fill (mem : GPUArray) (val : float32) : py device unit :=
  run (write_cells (gpudata mem) (replicate (size mem) val)).

Definition ones (s : list nat) : py device GPUArray :=
  a <- zeros s ;;
  fill a F32.one ;;
  ret a.

(** [set_from_numpy(mem, arr)]:
      assert mem.shape == arr.shape, "Shape of destination ..."
      mem.set(arr.astype(self.dtype)) *)
Definition set_from_numpy (mem : GPUArray) (arr : ndarray)
    : py device unit :=
  assert_ (bool_decide (shape mem = nd_shape arr))
          (ShapeMessage (shape mem) (nd_shape arr)) ;;
  run (GPUArray_set mem (astype_float32 arr)).

(** [get_numpy_copy(mem)]:
      assert type(mem) == self.array_type
      return mem.get() *)
Definition get_numpy_copy (mem : pyobject) : py device ndarray :=
  match mem with
  | PyGPUArray a => λ d, (Ok (GPUArray_get a d), d)
  | _ => raise (AssertionError NoMessage)
  end.

(** [create_from_numpy(arr)]:
      return gpuarray.to_gpu(arr.astype(self.dtype)) *)
Definition create_from_numpy (arr : ndarray) : py device GPUArray :=
  gpuarray_to_gpu (astype_float32 arr).

(** [copy_to(dest, src)]:
      drv.memcpy_dtod(dest.gpudata, src.gpudata, dest.nbytes) *)
Definition copy_to (dest src : GPUArray) : py device unit :=
  run (memcpy_dtod (gpudata dest) (gpudata src) (nbytes dest)).

(** ** The handler: mathematical operations

    [skcuda.misc.sum] and [skcuda.misc.mult_matvec] belong to the vendor
    library and are parameters.  [cumisc_sum a axis out] stands for
    [cumisc.sum(a, axis, out)] with the arguments the call gives
    ([None] for the ones it leaves out) and returns the array the
    library returns. *)
Section Handler.
Variable cumisc_sum :
  GPUArray → option Z → option GPUArray → py device GPUArray.
Variable cumisc_mult_matvec :
  GPUArray → GPUArray → GPUArray → py device unit.
Variable expf : float32 → float32.
Variable tanhf : float32 → float32.

(** [sum_t(a, axis, out)]:
      if len(a.shape) < 3 and (axis == 0 or axis == 1):
          cumisc.sum(a, axis, out)
      elif axis is None:
          self.copy_to(out, cumisc.sum(a))
      else:
          raise NotImplementedError *)
Definition sum_t (a : GPUArray) (axis : option Z) (out : GPUArray)
    : py device unit :=
  if bool_decide (length (shape a) < 3)
     && (bool_decide (axis = Some 0%Z) || bool_decide (axis = Some 1%Z))
  then
    _ <- cumisc_sum a axis (Some out) ;; ret tt
  else if bool_decide (axis = None) then
    s <- cumisc_sum a None None ;; copy_to out s
  else
    raise NotImplementedError.

Definition mult_tt (a b out : GPUArray) : py device unit :=
  run (mult_kernel a b out).

Definition mult_add_tt (a b out : GPUArray) : py device unit :=
  run (mult_add_kernel a b out).

Definition mult_st (a : float32) (b out : GPUArray) : py device unit :=
  run (mult_st_kernel a b out).

Definition add_tt (a b out : GPUArray) : py device unit :=
  run (add_mm_kernel a b out).

Definition add_st (s : float32) (t out : GPUArray) : py device unit :=
  run (add_st_kernel s t out).

Definition subtract_tt (a b out : GPUArray) : py device unit :=
  run (subtract_mm_kernel a b out).

(** [clip_t(a, a_min, a_max, out)]: [clip_kernel(a, out, a_min, a_max)].
    The bounds are the [float] values the kernel receives. *)
Definition clip_t (a : GPUArray) (a_min a_max : float32) (out : GPUArray)
    : py device unit :=
  run (clip_kernel a out a_min a_max).

Definition divide_tt (a b out : GPUArray) : py device unit :=
  run (div_kernel a b out).

(** [mult_mv(cls, m, v, out)]:
      if m.shape == v.shape:
          cls.mult_tt(m, v, out=out)
      else:
          cumisc.mult_matvec(m, v, out=out) *)
Definition mult_mv (m v out : GPUArray) : py device unit :=
  if bool_decide (shape m = shape v) then mult_tt m v out
  else cumisc_mult_matvec m v out.

(** [out.shape[k]]. *)
Definition shape_at {S} (a : GPUArray) (k : nat) : py S nat :=
  match shape a !! k with
  | Some n => ret n
  | None => raise IndexError
  end.

(** [binarize_v(v, out)]:
      binarize_v_kernel(out, v, out.shape[0], out.shape[1]) *)
Definition binarize_v (v out : GPUArray) : py device unit :=
  nrows <- shape_at out 0 ;;
  ncols <- shape_at out 1 ;;
  run (binarize_v_kernel out v nrows ncols).

Definition sigmoid (x y : GPUArray) : py device unit :=
  run (sigmoid_kernel expf x y).

Definition sigmoid_deriv (x y dy dx : GPUArray) : py device unit :=
  run (sigmoid_deriv_kernel x y dy dx).

Definition tanh (x y : GPUArray) : py device unit :=
  run (tanh_kernel tanhf x y).

Definition tanh_deriv (x y dy dx : GPUArray) : py device unit :=
  run (tanh_deriv_kernel x y dy dx).

Definition rel (x y : GPUArray) : py device unit :=
  run (rel_kernel x y).

Definition rel_deriv (x y dy dx : GPUArray) : py device unit :=
  run (rel_deriv_kernel x y dy dx).
End Handler.

(** ** The convolution bridge

    The cuDNN library is external: its calls are recorded in a trace, and
    the descriptors that were created and not yet destroyed are kept in
    [live].  The scaling factors [alpha = beta = 1.0] are left out of the
    recorded calls. *)
Inductive cudnn_call :=
| CreateTensorDescriptor (desc : nat)
| CreateFilterDescriptor (desc : nat)
| CreateConvolutionDescriptor (desc : nat)
| SetTensor4dDescriptor (desc format data_type : nat) (dims : list nat)
| SetFilter4dDescriptor (desc data_type : nat) (dims : list nat)
| SetConvolution2dDescriptor (desc pad_h pad_w u v upx upy mode : nat)
| ConvolutionForward (ctx x_desc x_data w_desc w_data conv_desc algo
                      y_desc y_data : nat)
| AddTensor (ctx mode b_desc b_data y_desc y_data : nat)
| ConvolutionBackwardFilter (ctx x_desc x_data dy_desc dy_data conv_desc
                             dw_desc dw_data : nat)
| ConvolutionBackwardData (ctx w_desc w_data dy_desc dy_data conv_desc
                           dx_desc dx_data : nat)
| ConvolutionBackwardBias (ctx dy_desc dy_data db_desc db_data : nat)
| DestroyTensorDescriptor (desc : nat)
| DestroyFilterDescriptor (desc : nat)
| DestroyConvolutionDescriptor (desc : nat).

Record cudnn_state := {
  next_desc : nat;
  live : list nat;
  trace : list cudnn_call
}.

Definition emit (c : cudnn_call) : py cudnn_state unit :=
  run (λ s, {| next_desc := next_desc s; live := live s;
               trace := trace s ++ [c] |}).

Definition create (c : nat → cudnn_call) : py cudnn_state nat :=
  λ s, let desc := next_desc s in
       (Ok desc, {| next_desc := S desc; live := desc :: live s;
                    trace := trace s ++ [c desc] |}).

Definition destroy (c : nat → cudnn_call) (desc : nat)
    : py cudnn_state unit :=
  run (λ s, {| next_desc := next_desc s;
               live := filter (λ x, x ≠ desc) (live s);
               trace := trace s ++ [c desc] |}).

Definition cudnnCreateTensorDescriptor := create CreateTensorDescriptor.
Definition cudnnCreateFilterDescriptor := create CreateFilterDescriptor.
Definition cudnnCreateConvolutionDescriptor :=
  create CreateConvolutionDescriptor.
Definition cudnnDestroyTensorDescriptor := destroy DestroyTensorDescriptor.
Definition cudnnDestroyFilterDescriptor := destroy DestroyFilterDescriptor.
Definition cudnnDestroyConvolutionDescriptor :=
  destroy DestroyConvolutionDescriptor.

(** The attributes [__init__] sets when [init_cudnn] is true. *)
Record cudnn_attrs := {
  cudnn_context : nat;
  cudnn_tensor_format : nat;
  cudnn_data_type : nat;
  cudnn_convmode : nat;
  cudnn_convpref : nat;
  cudnn_addmode : nat
}.

(** *** Name resolution inside a function body

    A name that is neither a parameter nor assigned in the body is looked
    up among the module's globals (and then the builtins, which hold none
    of the names below); a miss raises [NameError]. *)
Inductive pyvalue :=
| PyHandler (h : cudnn_attrs)
| PyPointer (p : nat)
| PyModuleLevel.

Definition module_globals : list string :=
  ["np"; "warnings"; "gpuarray"; "cumath"; "drv"; "pycuda";
   "ElementwiseKernel"; "SourceModule"; "culinalg"; "cumisc"; "Handler";
   "ctypes"; "cudnn"; "PyCudaHandler";
   "mult_kernel"; "mult_add_kernel"; "mult_st_kernel"; "add_mm_kernel";
   "add_st_kernel"; "subtract_mm_kernel"; "sigmoid_kernel";
   "sigmoid_deriv_kernel"; "tanh_kernel"; "tanh_deriv_kernel";
   "rel_kernel"; "rel_deriv_kernel"; "broadcast_features_kernel";
   "clip_kernel"; "div_kernel"; "binarize_v_kernel";
   "index_m_by_v_kernel"; "__softmax_kernel_code"; "_mod";
   "_softmax_impl"]%string.

Definition load_global {S} (name : string) : py S pyvalue :=
  if bool_decide (name ∈ module_globals) then ret PyModuleLevel
  else raise (NameError name).

Definition getattr {S} (v : pyvalue) (field : cudnn_attrs → nat)
    (name : string) : py S nat :=
  match v with
  | PyHandler h => ret (field h)
  | _ => raise (AttributeError name)
  end.

Definition as_pointer {S} (v : pyvalue) : py S nat :=
  match v with
  | PyPointer p => ret p
  | _ => raise (AttributeError "gpudata")
  end.

(** [self.<attr>] where [self] is not a parameter of the function. *)
Definition global_self {S} (field : cudnn_attrs → nat) (name : string)
    : py S nat :=
  self <- load_global "self" ;; getattr self field name.

Section Convolution.
(** [cudnnGetConvolution2dForwardOutputDim] and
    [cudnnGetConvolutionForwardAlgorithm] compute inside the library. *)
Variable output_dim : list nat → list nat → nat → nat * nat → list nat.
Variable forward_algorithm : nat.

(** [conv2d_forward_batch(self, inputs, weights, bias, outputs, pad,
    stride)] *)
Definition conv2d_forward_batch (self : cudnn_attrs)
    (inputs weights bias outputs : GPUArray) (pad : nat)
    (stride : nat * nat) : py cudnn_state unit :=
  let upscalex := 1 in
  let upscaley := 1 in
  x_desc <- cudnnCreateTensorDescriptor ;;
  emit (SetTensor4dDescriptor x_desc (cudnn_tensor_format self)
          (cudnn_data_type self) (shape inputs)) ;;
  w_desc <- cudnnCreateFilterDescriptor ;;
  emit (SetFilter4dDescriptor w_desc (cudnn_data_type self)
          (shape weights)) ;;
  b_desc <- cudnnCreateTensorDescriptor ;;
  emit (SetTensor4dDescriptor b_desc (cudnn_tensor_format self)
          (cudnn_data_type self) [1; size bias; 1; 1]) ;;
  conv_desc <- cudnnCreateConvolutionDescriptor ;;
  emit (SetConvolution2dDescriptor conv_desc pad pad (fst stride)
          (snd stride) upscalex upscaley (cudnn_convmode self)) ;;
  let outshape := output_dim (shape inputs) (shape weights) pad stride in
  assert_ (bool_decide (outshape = shape outputs)) NoMessage ;;
  w0 <- shape_at weights 0 ;;
  assert_ (bool_decide (w0 = size bias)) NoMessage ;;
  o1 <- shape_at outputs 1 ;;
  assert_ (bool_decide (o1 = size bias)) NoMessage ;;
  y_desc <- cudnnCreateTensorDescriptor ;;
  emit (SetTensor4dDescriptor y_desc (cudnn_tensor_format self)
          (cudnn_data_type self) (shape outputs)) ;;
  let algo := forward_algorithm in
  let x_data := gpudata inputs in
  let w_data := gpudata weights in
  let b_data := gpudata bias in
  let y_data := gpudata outputs in
  emit (ConvolutionForward (cudnn_context self) x_desc x_data w_desc
          w_data conv_desc algo y_desc y_data) ;;
  emit (AddTensor (cudnn_context self) (cudnn_addmode self) b_desc b_data
          y_desc y_data) ;;
  cudnnDestroyTensorDescriptor x_desc ;;
  cudnnDestroyTensorDescriptor y_desc ;;
  cudnnDestroyFilterDescriptor w_desc ;;
  cudnnDestroyTensorDescriptor b_desc ;;
  cudnnDestroyConvolutionDescriptor conv_desc.

(** [conv2d_backward_batch(out_deltas, inputs, in_deltas, weights, bias,
    weight_deltas, bias_deltas, pad, stride)], a [@staticmethod]: the
    body names [self], [outputs], [dw_data] and [db_data], none of which
    is a parameter or assigned in it. *)
Definition conv2d_backward_batch
    (out_deltas inputs in_deltas weights bias weight_deltas
     bias_deltas : GPUArray) (pad : nat) (stride : nat * nat)
    : py cudnn_state unit :=
  let upscalex := 1 in
  let upscaley := 1 in
  x_desc <- cudnnCreateTensorDescriptor ;;
  fmt <- global_self cudnn_tensor_format "cudnn_tensor_format" ;;
  dt <- global_self cudnn_data_type "cudnn_data_type" ;;
  emit (SetTensor4dDescriptor x_desc fmt dt (shape inputs)) ;;
  id_desc <- cudnnCreateTensorDescriptor ;;
  fmt <- global_self cudnn_tensor_format "cudnn_tensor_format" ;;
  dt <- global_self cudnn_data_type "cudnn_data_type" ;;
  emit (SetTensor4dDescriptor id_desc fmt dt (shape in_deltas)) ;;
  od_desc <- cudnnCreateTensorDescriptor ;;
  fmt <- global_self cudnn_tensor_format "cudnn_tensor_format" ;;
  dt <- global_self cudnn_data_type "cudnn_data_type" ;;
  emit (SetTensor4dDescriptor od_desc fmt dt (shape out_deltas)) ;;
  w_desc <- cudnnCreateFilterDescriptor ;;
  dt <- global_self cudnn_data_type "cudnn_data_type" ;;
  emit (SetFilter4dDescriptor w_desc dt (shape weights)) ;;
  dw_desc <- cudnnCreateFilterDescriptor ;;
  dt <- global_self cudnn_data_type "cudnn_data_type" ;;
  emit (SetFilter4dDescriptor dw_desc dt (shape weight_deltas)) ;;
  b_desc <- cudnnCreateTensorDescriptor ;;
  fmt <- global_self cudnn_tensor_format "cudnn_tensor_format" ;;
  dt <- global_self cudnn_data_type "cudnn_data_type" ;;
  emit (SetTensor4dDescriptor b_desc fmt dt [1; size bias; 1; 1]) ;;
  db_desc <- cudnnCreateTensorDescriptor ;;
  fmt <- global_self cudnn_tensor_format "cudnn_tensor_format" ;;
  dt <- global_self cudnn_data_type "cudnn_data_type" ;;
  emit (SetTensor4dDescriptor db_desc fmt dt [1; size bias_deltas; 1; 1]) ;;
  conv_desc <- cudnnCreateConvolutionDescriptor ;;
  mode <- global_self cudnn_convmode "cudnn_convmode" ;;
  emit (SetConvolution2dDescriptor conv_desc pad pad (fst stride)
          (snd stride) upscalex upscaley mode) ;;
  let x_data := gpudata inputs in
  let id_data := gpudata in_deltas in
  let od_data := gpudata out_deltas in
  let w_data := gpudata weights in
  let b_data := gpudata bias in
  outputs <- load_global "outputs" ;;
  y_data <- as_pointer outputs ;;
  ctx <- global_self cudnn_context "cudnn_context" ;;
  dw_data <- (v <- load_global "dw_data" ;; as_pointer v) ;;
  emit (ConvolutionBackwardFilter ctx x_desc x_data id_desc id_data
          conv_desc dw_desc dw_data) ;;
  ctx <- global_self cudnn_context "cudnn_context" ;;
  emit (ConvolutionBackwardData ctx w_desc w_data id_desc id_data
          conv_desc od_desc od_data) ;;
  ctx <- global_self cudnn_context "cudnn_context" ;;
  db_data <- (v <- load_global "db_data" ;; as_pointer v) ;;
  emit (ConvolutionBackwardBias ctx od_desc od_data db_desc db_data) ;;
  cudnnDestroyTensorDescriptor x_desc ;;
  cudnnDestroyTensorDescriptor id_desc ;;
  cudnnDestroyTensorDescriptor od_desc ;;
  cudnnDestroyFilterDescriptor w_desc ;;
  cudnnDestroyFilterDescriptor b_desc ;;
  cudnnDestroyFilterDescriptor dw_desc ;;
  cudnnDestroyFilterDescriptor db_desc ;;
  cudnnDestroyConvolutionDescriptor conv_desc.
End Convolution.

(** ** The elementwise operations as one family

    For each call: the buffers it reads, the buffer it writes, and the
    first array argument of the kernel call it makes. *)
Inductive elementwise_call :=
| Call_mult_tt (a b out : GPUArray)
| Call_mult_add_tt (a b out : GPUArray)
| Call_add_tt (a b out : GPUArray)
| Call_subtract_tt (a b out : GPUArray)
| Call_divide_tt (a b out : GPUArray)
| Call_clip_t (a : GPUArray) (a_min a_max : float32) (out : GPUArray)
| Call_sigmoid (x y : GPUArray)
| Call_tanh (x y : GPUArray)
| Call_rel (x y : GPUArray)
| Call_sigmoid_deriv (x y dy dx : GPUArray)
| Call_tanh_deriv (x y dy dx : GPUArray)
| Call_rel_deriv (x y dy dx : GPUArray).

Definition call_inputs (c : elementwise_call) : list GPUArray :=
  match c with
  | Call_mult_tt a b _ | Call_mult_add_tt a b _ | Call_add_tt a b _
  | Call_subtract_tt a b _ | Call_divide_tt a b _ => [a; b]
  | Call_clip_t a _ _ _ => [a]
  | Call_sigmoid x _ | Call_tanh x _ | Call_rel x _ => [x]
  | Call_sigmoid_deriv x y dy _ | Call_tanh_deriv x y dy _
  | Call_rel_deriv x y dy _ => [x; y; dy]
  end.

Definition call_output (c : elementwise_call) : GPUArray :=
  match c with
  | Call_mult_tt _ _ out | Call_mult_add_tt _ _ out | Call_add_tt _ _ out
  | Call_subtract_tt _ _ out | Call_divide_tt _ _ out => out
  | Call_clip_t _ _ _ out => out
  | Call_sigmoid _ y | Call_tanh _ y | Call_rel _ y => y
  | Call_sigmoid_deriv _ _ _ dx | Call_tanh_deriv _ _ _ dx
  | Call_rel_deriv _ _ _ dx => dx
  end.

Definition call_first_array (c : elementwise_call) : GPUArray :=
  match c with
  | Call_mult_tt a _ _ | Call_mult_add_tt a _ _ | Call_add_tt a _ _
  | Call_subtract_tt a _ _ | Call_divide_tt a _ _ => a
  | Call_clip_t a _ _ _ => a
  | Call_sigmoid x _ | Call_tanh x _ | Call_rel x _ => x
  | Call_sigmoid_deriv x _ _ _ | Call_tanh_deriv x _ _ _
  | Call_rel_deriv x _ _ _ => x
  end.

Definition perform (expf tanhf : float32 → float32)
    (c : elementwise_call) : py device unit :=
  match c with
  | Call_mult_tt a b out => mult_tt a b out
  | Call_mult_add_tt a b out => mult_add_tt a b out
  | Call_add_tt a b out => add_tt a b out
  | Call_subtract_tt a b out => subtract_tt a b out
  | Call_divide_tt a b out => divide_tt a b out
  | Call_clip_t a a_min a_max out => clip_t a a_min a_max out
  | Call_sigmoid x y => sigmoid expf x y
  | Call_tanh x y => tanh tanhf x y
  | Call_rel x y => rel x y
  | Call_sigmoid_deriv x y dy dx => sigmoid_deriv x y dy dx
  | Call_tanh_deriv x y dy dx => tanh_deriv x y dy dx
  | Call_rel_deriv x y dy dx => rel_deriv x y dy dx
  end.

(** No input of the call shares a cell with its output. *)
Definition no_input_aliases_output (c : elementwise_call) : Prop :=
  Forall (λ a, disjoint a (call_output c)) (call_inputs c).

(** Only cells of the output buffer change. *)
Definition writes_only_output (c : elementwise_call) (d d' : device)
    : Prop :=
  ∀ p, ¬ in_region (call_output c) p → load d' p = load d p.

(** Every input buffer holds what it held before. *)
Definition inputs_unchanged (c : elementwise_call) (d d' : device) : Prop :=
  Forall (λ a, ∀ i, i < size a → rd d' a i = rd d a i) (call_inputs c).

(** ** Broadcast multiply in the specification's words

    "[v] has shape compatible with one row; result broadcasts across all
    rows": element [(r, c)] of the result is [m[r, c] * v[c]], that is, at
    flat index [i] of a matrix with [ncols] columns, [m[i] * v[i mod
    ncols]]. *)
Definition broadcast_mult_spec (d : device) (m v : GPUArray)
    (ncols i : nat) : float32 :=
  F32.mul (rd d m i) (rd d v (i mod ncols)).

(** A reference total for the vendor's full reduction: the elements
    added from left to right. *)
Definition sum_cells (d : device) (a : GPUArray) : float32 :=
  fold_left F32.add (read_cells d (gpudata a) (size a)) F32.zero.

(** ** The order of the comparisons

    [SFcompare] orders the numbers by sign class, then exponent, then
    mantissa; [key] maps a number to a triple of integers ordered
    lexicographically in the same way. *)
Definition key (x : spec_float) : Z * Z * Z :=
  match x with
  | S754_infinity true => (-2, 0, 0)
  | S754_finite true m e => (-1, - e, - Zpos m)
  | S754_zero _ => (0, 0, 0)
  | S754_finite false m e => (1, e, Zpos m)
  | S754_infinity false => (2, 0, 0)
  | S754_nan => (3, 0, 0)
  end%Z.

Definition lex_lt (a b : Z * Z * Z) : Prop :=
  let '(a1, a2, a3) := a in
  let '(b1, b2, b3) := b in
  (a1 < b1 ∨ (a1 = b1 ∧ (a2 < b2 ∨ (a2 = b2 ∧ a3 < b3))))%Z.

(** ** Concrete data for the examples *)

Definition empty_device : device := {| cells := ∅; brk := 0 |}.

(** A device whose memory holds the given numbers from address 0 on. *)
Definition device_of (l : list float32) : device :=
  {| cells := cells (write_cells 0 l empty_device); brk := length l |}.

(** A float32 array of the given shape at the given address. *)
Definition array_at (p : nat) (s : list nat) : GPUArray :=
  {| gpudata := p; shape := s |}.

(** The float32 value of a small integer. *)
Definition f32 (n : Z) : float32 := F32.of_Z n.

(** The binary64 value of a small integer, and a host array of such
    values. *)
Definition f64 (n : Z) : float64 := F64.of_Z n.

Definition host_f64 (s : list nat) (l : list Z) : ndarray :=
  {| nd_dtype := np_float64; nd_shape := s; nd_data := map f64 l |}.

(** A stand-in for [skcuda.misc.sum] used in the examples: the full
    reduction returns a fresh scalar array holding [sum_cells]; the
    reduction of an [(n, k)] matrix along axis 0 or 1 adds columns or
    rows from left to right into [out]. *)
Definition reference_sum (a : GPUArray) (axis : option Z)
    (out : option GPUArray) : py device GPUArray :=
  match axis, shape a, out with
  | None, _, _ =>
      λ d, (Ok {| gpudata := brk d; shape := [] |},
            {| cells := <[brk d := sum_cells d a]> (cells d);
               brk := S (brk d) |})
  | Some 0%Z, [n; k], Some o =>
      λ d, (Ok o,
            write_cells (gpudata o)
              (map (λ c, fold_left F32.add
                           (map (λ r, rd d a (r * k + c)) (seq 0 n))
                           F32.zero) (seq 0 k)) d)
  | Some 1%Z, [n; k], Some o =>
      λ d, (Ok o,
            write_cells (gpudata o)
              (map (λ r, fold_left F32.add
                           (map (λ c, rd d a (r * k + c)) (seq 0 k))
                           F32.zero) (seq 0 n)) d)
  | _, _, _ => raise ValueError
  end.

(** A cuDNN state with nothing created yet, and a handler's attributes. *)
Definition fresh_cudnn : cudnn_state :=
  {| next_desc := 0; live := []; trace := [] |}.

Definition sample_attrs : cudnn_attrs :=
  {| cudnn_context := 1; cudnn_tensor_format := 0; cudnn_data_type := 0;
     cudnn_convmode := 1; cudnn_convpref := 0; cudnn_addmode := 1 |}.

(** Devices and arrays of the examples. *)
Definition clip_device : device :=
  device_of [f32 7; f32 (-5); S754_nan; f32 9; f32 9; f32 9].

Definition copy_device : device :=
  device_of (map f32 [1; 2; 3; 4; 5; 0; 0; 9]%Z).

Definition one_hot_device : device :=
  device_of (map f32 [2; 0; 7; 7; 7; 7; 7; 7]%Z).

Definition product_device : device :=
  device_of (map f32 [2; 3; 4; 5; 6; 7; 0; 0; 0]%Z).

(** One allocation of seven elements and three disjoint slices of it:
    [whole[0:1]], [whole[1:4]] and [whole[4:7]]. *)
Definition slices_device : device :=
  device_of (map f32 [0; 2; 3; 4; 5; 6; 7]%Z).

Definition whole : GPUArray := array_at 0 [7].
Definition whole_0_1 : GPUArray := slice_1d whole 0 1.
Definition whole_1_4 : GPUArray := slice_1d whole 1 4.
Definition whole_4_7 : GPUArray := slice_1d whole 4 7.

Definition six_device : device :=
  device_of (map f32 [1; 2; 3; 4; 5; 6; 0; 0; 0]%Z).

Definition relu_device : device :=
  device_of (map f32 [-2; -1; 0; 1; 2; 9; 9; 9; 9; 9;
                      1; 1; 1; 1; 1; 9; 9; 9; 9; 9]%Z).

(** The constant output-shape oracle used with [sample_attrs]. *)
Definition sample_output_dim (x w : list nat) (pad : nat)
    (stride : nat * nat) : list nat := [1; 2; 3; 3].

(** ** Allocated arrays *)

(** The array lies in the part of device memory that has been handed
    out. *)
Definition allocated (d : device) (a : GPUArray) : Prop :=
  gpudata a + size a ≤ brk d.

(** A float32 host array with the given shape and elements. *)
Definition host_f32 (s : list nat) (l : list float32) : ndarray :=
  {| nd_dtype := np_float32; nd_shape := s; nd_data := l |}.

(** ** Integers as floats

    [float_of_pos p]: the float32 number equal to the integer [p], its
    mantissa shifted left to 24 digits. *)
Definition float_of_pos (p : positive) : float32 :=
  S754_finite false
    (fst (shl_align p 0 (Zpos (digits2_pos p) - 24)))
    (Zpos (digits2_pos p) - 24).

(** C's conversion of a [float] to [int]: the fraction is discarded.  The
    conversion is undefined for NaN, the infinities and numbers outside
    the range of [int]. *)
Definition int_of_float (x : float32) : option Z :=
  match x with
  | S754_zero _ => Some 0%Z
  | S754_finite s m e =>
      let z := (if (0 <=? e)%Z then Zpos m * 2 ^ e
                else Zpos m / 2 ^ (- e))%Z in
      let z := if s then (- z)%Z else z in
      if ((- 2 ^ 31 <=? z) && (z <? 2 ^ 31))%Z then Some z else None
  | _ => None
  end.

(** ** Gathering by index *)

(* "float* out, float* v, float* m, int nrows, int ncols" :
   "out[i] = m[i*ncols + int(v[i])]"
   The launch is undefined when some [v[i]] has no conversion to [int]
   or converts to a negative index. *)
Definition index_m_by_v_kernel (out v m : GPUArray) (nrows ncols : nat)
    (d : device) : option device :=
  gathered ← mapM (λ i, z ← int_of_float (rd d v i);
                        if (0 <=? z)%Z
                        then Some (rd d m (i * ncols + Z.to_nat z))
                        else None)
                  (seq 0 (mem_size out));
  Some (write_cells (gpudata out) gathered d).

(** [index_m_by_v(m, v, out)]:
      index_m_by_v_kernel(out, v, m, m.shape[0], m.shape[1])
    [None] stands for an undefined launch. *)
Definition index_m_by_v (m v out : GPUArray) (d : device)
    : option (result unit * device) :=
  match (nrows <- shape_at m 0 ;; ncols <- shape_at m 1 ;;
         ret (nrows, ncols)) d with
  | (Ok (nrows, ncols), d') =>
      d'' ← index_m_by_v_kernel out v m nrows ncols d';
      Some (Ok tt, d'')
  | (Raise e, d') => Some (Raise e, d')
  end.

(** The matrix [[[10; 20; 30]; [40; 50; 60]]], the index vector
    [[2; 0]] and two more cells. *)
Definition gather_device : device :=
  device_of (map f32 [10; 20; 30; 40; 50; 60; 2; 0; 9; 9]%Z).

(** ** Broadcasting over feature dimensions *)

(* "float* out, float* a, unsigned int broadcast_size" :
   "out[i] = a[i / broadcast_size]"
   A [broadcast_size] of zero leaves the quotient undefined; the method
   below passes zero only together with an empty [out], for which no
   thread runs. *)
Definition broadcast_features_kernel (out a : GPUArray)
    (broadcast_size : nat) : device → device :=
  elementwise out out (λ d i, rd d a (i / broadcast_size)).

(** [broadcast_features_t(a, out)]:
      assert len(a.shape) == 3
      assert a.shape[2] == 1
      assert len(out.shape) > 2
      a_flat = a.reshape(a.size)
      out_flat = out.reshape(out.size)
      broadcast_features_kernel(out_flat, a_flat, np.prod(out.shape[2:])) *)
Definition broadcast_features_t (a out : GPUArray) : py device unit :=
  assert_ (bool_decide (length (shape a) = 3)) NoMessage ;;
  a2 <- shape_at a 2 ;;
  assert_ (bool_decide (a2 = 1)) NoMessage ;;
  assert_ (bool_decide (2 < length (shape out))) NoMessage ;;
  let a_flat := reshape a [size a] in
  let out_flat := reshape out [size out] in
  run (broadcast_features_kernel out_flat a_flat
         (prod (drop 2 (shape out)))).

(** Six values for a [(2, 3, 1)] array and room for a [(2, 3, 2)]
    output. *)
Definition broadcast_device : device :=
  device_of (map f32 [1; 2; 3; 4; 5; 6;
                      0; 0; 0; 0; 0; 0; 0; 0; 0; 0; 0; 0]%Z).

(** ** The softmax kernel

    One block of 32 threads per row; [__syncthreads()] separates the
    phases.  Within a phase every thread reads the memory as the
    previous phase left it; the blocks, which share nothing but [tmp]
    (one cell each), are run one after the other. *)

Definition FLT_MAX : float32 := S754_finite false 16777215 104.
Definition neg_FLT_MAX : float32 := S754_finite true 16777215 104.

(** [unsigned int] arithmetic wraps at [2^32]. *)
Definition u32 (z : Z) : Z := (z mod 2 ^ 32)%Z.

(** [blockIdx.x * width + i]. *)
Definition row_index (block width i : nat) : nat :=
  Z.to_nat (u32 (Z.of_nat block * Z.of_nat width + Z.of_nat i)).

(** The indices thread [t] visits:
    [for (unsigned int i = threadIdx.x; i < width; i += 32)]. *)
Definition thread_indices (t width : nat) : list nat :=
  map (λ j, t + 32 * j) (seq 0 ((width + 31 - t) / 32)).

(** [if (val > cur_max) cur_max = val;] *)
Definition max_step (cur_max val : float32) : float32 :=
  if F32.gtb val cur_max then val else cur_max.

Section Softmax.
Variable expf : float32 → float32.   (* the intrinsic [__expf] *)

(** The kernel body for one block; [mat], [tmp] and [out] are the three
    pointers. *)
Definition softmax_block (mat tmp out width block : nat) (d : device)
    : device :=
  let element (d' : device) (i : nat) :=
    load d' (mat + row_index block width i) in
  (* each thread scans its indices for a local maximum *)
  let max_vals :=
    map (λ t, fold_left (λ cur_max i, max_step cur_max (element d i))
                        (thread_indices t width) neg_FLT_MAX)
        (seq 0 32) in
  (* thread 0 reduces the 32 local maxima into tmp[blockIdx.x] *)
  let d1 := store d (tmp + block)
              (fold_left max_step max_vals neg_FLT_MAX) in
  (* each thread exponentiates, writes to out and adds up *)
  let x (i : nat) :=
    expf (F32.sub (element d1 i) (load d1 (tmp + block))) in
  let d2 := fold_left (λ d' i, store d' (out + row_index block width i)
                                     (x i))
                      (seq 0 width) d1 in
  let sums :=
    map (λ t, fold_left (λ sum i, F32.add sum (x i))
                        (thread_indices t width) F32.zero)
        (seq 0 32) in
  (* thread 0 reduces the 32 partial sums into tmp[blockIdx.x] *)
  let d3 := store d2 (tmp + block) (fold_left F32.add sums F32.zero) in
  (* each thread divides what it wrote by the total *)
  let quotient (i : nat) :=
    F32.div (load d3 (out + row_index block width i))
            (load d3 (tmp + block)) in
  fold_left (λ d' i, store d' (out + row_index block width i)
                           (quotient i))
            (seq 0 width) d3.

(** [softmax_m(m, out)]:
      n, k = m.shape
      tmp = gpuarray.empty((1, n), dtype=m.dtype)
      _softmax_impl(m, tmp.gpudata, out, np.int32(n), np.int32(k),
                    block=(32, 1, 1), grid=(n, 1, 1))
      return out
    [gpuarray.empty] hands out [n] cells without writing them. *)
Definition softmax_m (m out : GPUArray) : py device GPUArray :=
  match shape m with
  | [n; k] =>
      λ d, let tmp := brk d in
           let d0 := {| cells := cells d; brk := brk d + prod [1; n] |} in
           (Ok out,
            fold_left (λ d' block,
                         softmax_block (gpudata m) tmp (gpudata out) k
                                       block d')
                      (seq 0 n) d0)
  | _ => raise ValueError
  end.

(** *** What the kernel computes for row [r] of a matrix at [mat] with
    [k] columns, read in device [d] *)

(** The value subtracted before exponentiation: the maximum of the 32
    local maxima. *)
Definition row_max (d : device) (mat k r : nat) : float32 :=
  fold_left max_step
    (map (λ t, fold_left (λ cur_max i,
                            max_step cur_max (load d (mat + (r * k + i))))
                         (thread_indices t k) neg_FLT_MAX)
         (seq 0 32))
    neg_FLT_MAX.

Definition row_exp (d : device) (mat k r i : nat) : float32 :=
  expf (F32.sub (load d (mat + (r * k + i))) (row_max d mat k r)).

(** The divisor: the sum of the 32 partial sums. *)
Definition row_sum (d : device) (mat k r : nat) : float32 :=
  fold_left F32.add
    (map (λ t, fold_left (λ sum i, F32.add sum (row_exp d mat k r i))
                         (thread_indices t k) F32.zero)
         (seq 0 32))
    F32.zero.
End Softmax.

(** The memory after the first [j] blocks of a launch have run. *)
Definition softmax_blocks (expf : float32 → float32)
    (mat tmp out k : nat) (d0 : device) (j : nat) : device :=
  fold_left (λ d' block, softmax_block expf mat tmp out k block d')
            (seq 0 j) d0.

(** A 2x3 matrix at address 0 and room for a 2x3 output. *)
Definition softmax_device : device :=
  device_of (map f32 [1; 2; 3; 0; -1; 5; 0; 0; 0; 0; 0; 0]%Z).

(** ** Basic facts about the store *)

Lemma load_store_eq d p v : load (store d p v) p = v.
Proof. unfold load, store; simpl. by rewrite lookup_insert_eq. Qed.

Lemma load_store_ne d p q v : p ≠ q → load (store d p v) q = load d q.
Proof. intros H. unfold load, store; simpl. by rewrite lookup_insert_ne. Qed.

Lemma brk_write_cells l : ∀ p d, brk (write_cells p l d) = brk d.
Proof. induction l as [|v l IH]; intros p d; simpl; [done|]. by rewrite IH. Qed.

Lemma load_write_cells_outside l :
  ∀ p d q, q < p ∨ p + length l ≤ q →
    load (write_cells p l d) q = load d q.
Proof.
  induction l as [|v l IH]; intros p d q Hq; simpl in *; [done|].
  rewrite IH by lia. apply load_store_ne. lia.
Qed.

Lemma load_write_cells_inside l :
  ∀ p d k v, l !! k = Some v → load (write_cells p l d) (p + k) = v.
Proof.
  induction l as [|w l IH]; intros p d k v Hk; [done|].
  destruct k as [|k]; simpl in *.
  - injection Hk as ->. rewrite load_write_cells_outside by lia.
    rewrite Nat.add_0_r. apply load_store_eq.
  - replace (p + S k) with (S p + k) by lia. by apply IH.
Qed.

Lemma read_cells_length d p n : length (read_cells d p n) = n.
Proof. unfold read_cells. by rewrite length_map, length_seq. Qed.

Lemma read_cells_lookup d p n k :
  k < n → read_cells d p n !! k = Some (load d (p + k)).
Proof.
  intros Hk. unfold read_cells. rewrite list_lookup_fmap.
  rewrite lookup_seq_lt by done. done.
Qed.

Lemma read_write_cells l p d :
  read_cells (write_cells p l d) p (length l) = l.
Proof.
  apply list_eq. intros k. destruct (l !! k) as [v|] eqn:Hk.
  - rewrite read_cells_lookup by (by eapply lookup_lt_Some).
    f_equal. by apply load_write_cells_inside.
  - apply lookup_ge_None. rewrite read_cells_length.
    by apply lookup_ge_None.
Qed.

(** What a launch leaves in memory. *)
Lemma elementwise_target repr_vec target op d i :
  i < mem_size repr_vec →
  rd (elementwise repr_vec target op d) target i = op d i.
Proof.
  intros Hi. unfold rd, elementwise. apply load_write_cells_inside.
  rewrite list_lookup_fmap, lookup_seq_lt by done. done.
Qed.

Lemma elementwise_outside repr_vec target op d q :
  q < gpudata target ∨ gpudata target + mem_size repr_vec ≤ q →
  load (elementwise repr_vec target op d) q = load d q.
Proof.
  intros Hq. unfold elementwise. apply load_write_cells_outside.
  by rewrite length_map, length_seq.
Qed.

(** ** Comparisons of floating-point numbers *)

Ltac split_compare :=
  repeat match goal with
  | |- context [Z.compare ?a ?b] =>
      destruct (Z.compare_spec a b); subst; simpl
  | |- context [Pos.compare_cont Eq ?a ?b] =>
      change (Pos.compare_cont Eq a b) with (Pos.compare a b);
      destruct (Pos.compare_spec a b); subst; simpl
  end.

Lemma SFltb_key x y :
  F32.is_nan x = false → F32.is_nan y = false →
  SFltb x y = true ↔ lex_lt (key x) (key y).
Proof.
  intros Hx Hy. unfold SFltb, SFcompare.
  destruct x as [sx|sx| |sx mx ex], y as [sy|sy| |sy my ey];
    try discriminate; try destruct sx; try destruct sy; simpl;
    split_compare;
    (split; [ try discriminate; intros _; lia
            | try reflexivity; intros; exfalso; lia ]).
Qed.

Lemma SFltb_not_nan x y :
  SFltb x y = true → F32.is_nan x = false ∧ F32.is_nan y = false.
Proof.
  unfold SFltb, SFcompare.
  destruct x as [?|?| |? ? ?], y as [?|?| |? ? ?]; simpl; try discriminate; done.
Qed.

(** [x < y] and [¬ z < y] give [x < z] when [z] is a number. *)
Lemma SFltb_le_trans x y z :
  SFltb x y = true → SFltb z y = false → F32.is_nan z = false →
  SFltb x z = true.
Proof.
  intros Hxy Hzy Hz. destruct (SFltb_not_nan _ _ Hxy) as [Hx Hy].
  apply SFltb_key in Hxy; [|done..]. apply SFltb_key; [done..|].
  assert (¬ lex_lt (key z) (key y)) as Hn.
  { intros H. apply SFltb_key in H; [congruence|done..]. }
  revert Hxy Hn. unfold lex_lt.
  destruct (key x) as [[x1 x2] x3], (key y) as [[y1 y2] y3],
           (key z) as [[z1 z2] z3]. lia.
Qed.

(** With the bounds the wrong way round the upper bound is the result,
    whatever the input (NaN included). *)
Lemma fminf_fmaxf_inverted lo hi a :
  F32.gtb lo hi = true → F32.fminf (F32.fmaxf a lo) hi = hi.
Proof.
  unfold F32.gtb. intros H. destruct (SFltb_not_nan _ _ H) as [Hhi Hlo].
  assert (F32.fminf lo hi = hi) as Hlohi.
  { unfold F32.fminf. by rewrite Hlo, Hhi, H. }
  unfold F32.fmaxf. destruct (F32.is_nan a) eqn:Ha; [done|].
  rewrite Hlo. destruct (SFltb a lo) eqn:Hcmp; [done|].
  unfold F32.fminf. rewrite Ha, Hhi.
  by rewrite (SFltb_le_trans hi lo a).
Qed.

(** ** [clip_t] *)

(** C9. [clip_t(a, a_min, a_max, out)] is never rejected and leaves
    [fminf(fmaxf(a[i], a_min), a_max)] in [out[i]] at every flat index
    [i] of [a]; when [a_min > a_max] that value is [a_max]. *)
Theorem clip_t_clamps (a : GPUArray) (a_min a_max : float32)
    (out : GPUArray) (d : device) (i : nat) :
  i < size a →
  fst (clip_t a a_min a_max out d) = Ok tt
  ∧ rd (snd (clip_t a a_min a_max out d)) out i
    = F32.fminf (F32.fmaxf (rd d a i) a_min) a_max
  ∧ (F32.gtb a_min a_max = true →
     rd (snd (clip_t a a_min a_max out d)) out i = a_max).
Proof.
  intros Hi. unfold clip_t, run, clip_kernel; simpl.
  rewrite elementwise_target by done.
  repeat split; auto using fminf_fmaxf_inverted.
Qed.

(** The bounds 1 and 0 are inverted: the element -5 of [[7; -5; NaN]] is
    clipped to 0, and so is the NaN. *)
Lemma clip_t_clamps_witness :
  (rd (snd (clip_t (array_at 0 [3]) (f32 1) (f32 0) (array_at 3 [3])
              clip_device)) (array_at 3 [3]) 1
   = F32.fminf (F32.fmaxf (f32 (-5)) (f32 1)) (f32 0)
   ∧ rd (snd (clip_t (array_at 0 [3]) (f32 1) (f32 0) (array_at 3 [3])
                clip_device)) (array_at 3 [3]) 1
     = f32 0)
  ∧ rd (snd (clip_t (array_at 0 [3]) (f32 1) (f32 0) (array_at 3 [3])
               clip_device)) (array_at 3 [3]) 2
    = f32 0.
Proof.
  split.
  - destruct (clip_t_clamps (array_at 0 [3]) (f32 1) (f32 0)
                (array_at 3 [3]) clip_device 1) as (_ & H1 & H2);
      [vm_compute; lia|].
    split; [exact H1 | apply H2; reflexivity].
  - destruct (clip_t_clamps (array_at 0 [3]) (f32 1) (f32 0)
                (array_at 3 [3]) clip_device 2) as (_ & _ & H2);
      [vm_compute; lia|].
    apply H2; reflexivity.
Defined.

(** ** [copy_to] *)

Lemma nbytes_cells a : nbytes a / itemsize = size a.
Proof. unfold nbytes, itemsize. by apply Nat.div_mul. Qed.

(** What [copy_to] leaves in the destination. *)
Lemma copy_to_cells dest src d :
  copy_to dest src d
  = (Ok tt, memcpy_dtod (gpudata dest) (gpudata src) (nbytes dest) d)
  ∧ ∀ k, k < size dest →
      rd (memcpy_dtod (gpudata dest) (gpudata src) (nbytes dest) d) dest k
      = rd d src k.
Proof.
  split; [done|]. intros k Hk. unfold memcpy_dtod. rewrite nbytes_cells.
  unfold rd. apply load_write_cells_inside. by apply read_cells_lookup.
Qed.

(** C10. [copy_to(dest, src)] hands the driver [dest]'s byte size and
    checks nothing: it always succeeds, every cell of [dest] receives the
    cell of [src] at the same offset, no other cell changes, and the
    shape of [src] plays no role (what [src] holds beyond [dest]'s size
    is not transferred). *)
Theorem copy_to_dest_size (dest src : GPUArray) (d : device) :
  copy_to dest src d
  = (Ok tt, memcpy_dtod (gpudata dest) (gpudata src) (nbytes dest) d)
  ∧ (∀ k, k < size dest →
       rd (snd (copy_to dest src d)) dest k = rd d src k)
  ∧ (∀ p, ¬ in_region dest p →
       load (snd (copy_to dest src d)) p = load d p)
  ∧ (∀ src', gpudata src' = gpudata src →
       copy_to dest src' d = copy_to dest src d).
Proof.
  unfold copy_to, run, memcpy_dtod; cbn [fst snd]. rewrite nbytes_cells.
  repeat split.
  - intros k Hk. unfold rd. apply load_write_cells_inside.
    by apply read_cells_lookup.
  - intros p Hp. apply load_write_cells_outside.
    rewrite read_cells_length. unfold in_region in Hp. lia.
  - by intros src' ->.
Qed.

(** A source of five elements copied into a destination of two: two
    elements arrive, the cell after the destination keeps its value. *)
Lemma copy_to_dest_size_witness :
  rd (snd (copy_to (array_at 5 [2]) (array_at 0 [5]) copy_device))
     (array_at 5 [2]) 1
  = f32 2
  ∧ load (snd (copy_to (array_at 5 [2]) (array_at 0 [5]) copy_device)) 7
    = f32 9.
Proof.
  destruct (copy_to_dest_size (array_at 5 [2]) (array_at 0 [5])
              copy_device) as (_ & Hin & Hout & _).
  split.
  - rewrite Hin by (vm_compute; lia). reflexivity.
  - rewrite Hout by (vm_compute; lia). reflexivity.
Defined.

(** ** [binarize_v] *)

(** C7. On a [(rows, cols)] output, [binarize_v(v, out)] succeeds and the
    element at row [r] and column [c] is [1.0] if [v[r] == c] (the
    kernel's comparison of the float [v[r]] with the column index) and
    [0.0] otherwise. *)
Theorem binarize_v_one_hot (v out : GPUArray) (rows cols : nat)
    (d : device) (r c : nat) :
  shape out = [rows; cols] → r < rows → c < cols →
  fst (binarize_v v out d) = Ok tt
  ∧ rd (snd (binarize_v v out d)) out (r * cols + c)
    = if F32.eqb (rd d v r) (F32.of_Z (Z.of_nat c))
      then F32.one else F32.zero.
Proof.
  intros Hs Hr Hc. unfold binarize_v, shape_at, bind, run, ret.
  rewrite Hs; simpl. split; [done|].
  unfold binarize_v_kernel. rewrite elementwise_target.
  - rewrite Nat.div_add_l, Nat.div_small, Nat.add_0_r by lia.
    replace ((r * cols + c) mod cols) with c; [done|].
    rewrite Nat.add_comm, Nat.Div0.mod_add. by rewrite Nat.mod_small.
  - unfold mem_size, size. rewrite Hs; simpl. nia.
Qed.

(** The index vector [[2; 0]] with two rows and three columns gives
    [[[0; 0; 1]; [1; 0; 0]]]. *)
Lemma binarize_v_one_hot_witness :
  fst (binarize_v (array_at 0 [2]) (array_at 2 [2; 3]) one_hot_device)
  = Ok tt
  ∧ rd (snd (binarize_v (array_at 0 [2]) (array_at 2 [2; 3])
               one_hot_device)) (array_at 2 [2; 3]) (0 * 3 + 2)
    = F32.one
  ∧ rd (snd (binarize_v (array_at 0 [2]) (array_at 2 [2; 3])
               one_hot_device)) (array_at 2 [2; 3]) (1 * 3 + 0)
    = F32.one
  ∧ rd (snd (binarize_v (array_at 0 [2]) (array_at 2 [2; 3])
               one_hot_device)) (array_at 2 [2; 3]) (1 * 3 + 1)
    = F32.zero.
Proof.
  pose proof (binarize_v_one_hot (array_at 0 [2]) (array_at 2 [2; 3]) 2 3
                one_hot_device 0 2 eq_refl) as H02.
  pose proof (binarize_v_one_hot (array_at 0 [2]) (array_at 2 [2; 3]) 2 3
                one_hot_device 1 0 eq_refl) as H10.
  pose proof (binarize_v_one_hot (array_at 0 [2]) (array_at 2 [2; 3]) 2 3
                one_hot_device 1 1 eq_refl) as H11.
  destruct H02 as [Hok H02]; [lia..|].
  destruct H10 as [_ H10]; [lia..|].
  destruct H11 as [_ H11]; [lia..|].
  refine (conj Hok (conj _ (conj _ _)));
    [rewrite H02 | rewrite H10 | rewrite H11]; reflexivity.
Defined.

(** The whole matrix of that example, read back from the device. *)
Example binarize_v_example :
  nd_data (GPUArray_get (array_at 2 [2; 3])
             (snd (binarize_v (array_at 0 [2]) (array_at 2 [2; 3])
                     one_hot_device)))
  = map f32 [0; 0; 1; 1; 0; 0]%Z.
Proof. vm_compute. reflexivity. Qed.

(** ** The frame of the elementwise operations *)

(** Every elementwise operation is one launch: as many threads as its
    first array argument has elements, each writing its cell of the
    output. *)
Lemma perform_launch expf tanhf c :
  ∃ op, perform expf tanhf c
        = run (elementwise (call_first_array c) (call_output c) op).
Proof. destruct c; eexists; reflexivity. Qed.

Lemma launch_frame repr_vec target op d p :
  mem_size repr_vec ≤ size target → ¬ in_region target p →
  load (elementwise repr_vec target op d) p = load d p.
Proof.
  intros Hn Hp. apply elementwise_outside. unfold in_region in Hp. lia.
Qed.

Lemma disjoint_not_in_region a out i :
  disjoint a out → i < size a → ¬ in_region out (gpudata a + i).
Proof. unfold disjoint, in_region. lia. Qed.

(** C8, as amended.  When no input buffer shares a cell with the output
    buffer and the output buffer has room for the launch (it holds at
    least as many elements as the first array argument), the call
    succeeds, only cells of the output buffer change and every input
    buffer holds what it held before. *)
Theorem elementwise_frame (expf tanhf : float32 → float32)
    (c : elementwise_call) (d : device) :
  no_input_aliases_output c →
  size (call_first_array c) ≤ size (call_output c) →
  fst (perform expf tanhf c d) = Ok tt
  ∧ writes_only_output c d (snd (perform expf tanhf c d))
  ∧ inputs_unchanged c d (snd (perform expf tanhf c d)).
Proof.
  intros Halias Hroom. destruct (perform_launch expf tanhf c) as [op ->].
  unfold run; cbn [fst snd]. split; [done|]. split.
  - intros p Hp. by apply launch_frame.
  - unfold inputs_unchanged. eapply Forall_impl; [exact Halias|].
    intros a Ha i Hi. cbv beta in Ha. unfold rd. apply launch_frame; [done|].
    by apply disjoint_not_in_region.
Qed.

(** [mult_tt] on three disjoint arrays of three elements each. *)
Lemma elementwise_frame_witness :
  fst (perform id id
         (Call_mult_tt (array_at 0 [3]) (array_at 3 [3]) (array_at 6 [3]))
         product_device)
  = Ok tt
  ∧ writes_only_output
      (Call_mult_tt (array_at 0 [3]) (array_at 3 [3]) (array_at 6 [3]))
      product_device
      (snd (perform id id
              (Call_mult_tt (array_at 0 [3]) (array_at 3 [3])
                            (array_at 6 [3]))
              product_device))
  ∧ inputs_unchanged
      (Call_mult_tt (array_at 0 [3]) (array_at 3 [3]) (array_at 6 [3]))
      product_device
      (snd (perform id id
              (Call_mult_tt (array_at 0 [3]) (array_at 3 [3])
                            (array_at 6 [3]))
              product_device)).
Proof.
  apply elementwise_frame.
  - repeat constructor; unfold disjoint; simpl; lia.
  - simpl. unfold size; simpl. lia.
Defined.

(** C8, as stated, fails.  [whole[0:1]], [whole[1:4]] and [whole[4:7]]
    are disjoint slices of one allocation, the output [whole[0:1]] lying
    just before the input [whole[1:4]].  The launch of
    [mult_tt(whole[1:4], whole[4:7], whole[0:1])] has three threads, one
    per element of its first array; the second and third write past the
    single element of the output, into the first input. *)
Lemma frame_needs_room :
  no_input_aliases_output (Call_mult_tt whole_1_4 whole_4_7 whole_0_1)
  ∧ ¬ (writes_only_output (Call_mult_tt whole_1_4 whole_4_7 whole_0_1)
         slices_device
         (snd (perform id id (Call_mult_tt whole_1_4 whole_4_7 whole_0_1)
                 slices_device))
       ∧ inputs_unchanged (Call_mult_tt whole_1_4 whole_4_7 whole_0_1)
           slices_device
           (snd (perform id id
                   (Call_mult_tt whole_1_4 whole_4_7 whole_0_1)
                   slices_device))).
Proof.
  split.
  - repeat constructor; unfold disjoint; simpl; lia.
  - intros [_ H]. apply Forall_cons in H as [H _].
    specialize (H 0). vm_compute in H. specialize (H (le_n_S _ _ (le_0_n _))).
    discriminate H.
Qed.

(** What that call leaves in the allocation: the first two elements of
    the input [whole[1:4]] (cells 1 and 2) now hold the products [3 * 6]
    and [4 * 7]. *)
Example overrun_memory_example :
  nd_data (GPUArray_get whole
             (snd (mult_tt whole_1_4 whole_4_7 whole_0_1 slices_device)))
  = map f32 [10; 18; 28; 4; 5; 6; 7]%Z.
Proof. vm_compute. reflexivity. Qed.

(** ** Narrowing and equality of host arrays *)

Lemma iter_pos_invariant {A} (f : A → A) (P : A → Prop) :
  (∀ x, P x → P (f x)) → ∀ n x, P x → P (SpecFloat.iter_pos f n x).
Proof.
  intros Hf. induction n as [n IH|n IH|]; intros x Hx; simpl; auto.
Qed.

Lemma shr_1_nonneg mrs : (0 ≤ shr_m mrs)%Z → (0 ≤ shr_m (shr_1 mrs))%Z.
Proof.
  destruct mrs as [m r s]. destruct m as [|p|p]; simpl; [done| |lia].
  intros _. destruct p; simpl; lia.
Qed.

Lemma shr_fexp_nonneg prec emax m e l :
  (0 ≤ m)%Z → (0 ≤ shr_m (fst (shr_fexp prec emax m e l)))%Z.
Proof.
  intros Hm. unfold shr_fexp, shr.
  assert (0 ≤ shr_m (shr_record_of_loc m l))%Z as H0.
  { destruct l as [|[]]; simpl; done. }
  destruct (fexp _ _ _ - e)%Z; simpl; [done| |done].
  apply iter_pos_invariant; [apply shr_1_nonneg | done].
Qed.

Lemma round_nearest_even_nonneg m l :
  (0 ≤ m)%Z → (0 ≤ round_nearest_even m l)%Z.
Proof.
  intros Hm. unfold round_nearest_even.
  destruct l as [|[]]; try done; [destruct (Z.even m)|]; lia.
Qed.

(** Rounding a number never produces a NaN. *)
Lemma binary_round_aux_not_nan prec emax s m e l :
  (0 ≤ m)%Z → F32.is_nan (binary_round_aux prec emax s m e l) = false.
Proof.
  intros Hm. unfold binary_round_aux.
  pose proof (shr_fexp_nonneg prec emax m e l Hm) as H1.
  destruct (shr_fexp prec emax m e l) as [mrs' e']; simpl in H1.
  pose proof (shr_fexp_nonneg prec emax _ e' loc_Exact
                (round_nearest_even_nonneg _ (loc_of_shr_record mrs') H1))
    as H2.
  destruct (shr_fexp prec emax _ e' loc_Exact) as [mrs'' e'']; simpl in H2.
  destruct (shr_m mrs'') as [|p|p]; [done| |lia].
  by destruct (_ <=? _)%Z.
Qed.

Lemma convert_not_nan prec emax x :
  is_finite x = true → F32.is_nan (convert prec emax x) = false.
Proof.
  destruct x as [?|?| |s m e]; try done. intros _. unfold convert, binary_round.
  destruct (shl_align _ _ _) as [mz ez]. by apply binary_round_aux_not_nan.
Qed.

Lemma SFeqb_refl x : F32.is_nan x = false → SFeqb x x = true.
Proof.
  unfold SFeqb, SFcompare.
  destruct x as [s|s| |s m e]; try done; destruct s; try done; intros _;
    by rewrite Z.compare_refl, Pos.compare_cont_refl.
Qed.

Lemma all_eqb_refl l :
  Forall (λ v, F32.is_nan v = false) l → all_eqb l l = true.
Proof.
  induction 1 as [|v l Hv _ IH]; simpl; [done|].
  by rewrite SFeqb_refl, IH.
Qed.

Lemma astype_float32_not_nan x :
  nd_finite x →
  Forall (λ v, F32.is_nan v = false) (nd_data (astype_float32 x)).
Proof.
  unfold nd_finite, astype_float32; simpl. intros H.
  destruct (nd_dtype x).
  - eapply Forall_impl; [exact H|]. by intros [] ?.
  - apply Forall_fmap. eapply Forall_impl; [exact H|].
    intros v Hv. by apply convert_not_nan.
Qed.

Lemma astype_float32_wf x : nd_wf x → nd_wf (astype_float32 x).
Proof.
  unfold nd_wf, astype_float32; simpl.
  destruct (nd_dtype x); [done|]. by rewrite length_map.
Qed.

(** Reading an array back after [set] gives the host array that was
    set. *)
Lemma GPUArray_get_set a ary d :
  nd_dtype ary = np_float32 → nd_shape ary = shape a → nd_wf ary →
  GPUArray_get a (GPUArray_set a ary d) = ary.
Proof.
  intros Hdt Hsh Hwf. unfold GPUArray_get, GPUArray_set, memcpy_htod.
  destruct ary as [dt sh data]; simpl in *. subst. f_equal.
  unfold nd_wf in Hwf; simpl in Hwf. unfold size. rewrite <- Hwf.
  apply read_write_cells.
Qed.

(** ** [set_from_numpy] *)

(** C4. [set_from_numpy(dest, host_array)] raises exactly when the two
    shapes differ; the error is the assertion's, carries both shapes and
    leaves the device as it was.  When the shapes are equal the call
    succeeds and transfers the host data cast to float32: reading [dest]
    back gives [host_array.astype(float32)]. *)
Theorem set_from_numpy_shape_check (mem : GPUArray) (arr : ndarray)
    (d : device) :
  (is_raise (fst (set_from_numpy mem arr d)) ↔ shape mem ≠ nd_shape arr)
  ∧ (shape mem ≠ nd_shape arr →
     set_from_numpy mem arr d
     = (Raise (AssertionError (ShapeMessage (shape mem) (nd_shape arr))),
        d))
  ∧ (shape mem = nd_shape arr →
     set_from_numpy mem arr d
     = (Ok tt, GPUArray_set mem (astype_float32 arr) d)
     ∧ (nd_wf arr →
        GPUArray_get mem (snd (set_from_numpy mem arr d))
        = astype_float32 arr)).
Proof.
  unfold set_from_numpy, assert_, bind, raise, ret, run.
  case_bool_decide as Hs; cbn [fst snd is_raise].
  - split; [split; [done | intros H; by destruct H] |].
    split; [intros H; by destruct H |].
    intros _. split; [done|]. intros Hwf.
    apply GPUArray_get_set; [done | done | by apply astype_float32_wf].
  - split; [done|]. split; [done|]. intros H; by destruct Hs.
Qed.

(** A 2x2 host array is refused by a 4-element vector and accepted by a
    2x2 buffer. *)
Lemma set_from_numpy_shape_check_witness :
  set_from_numpy (array_at 0 [4]) (host_f64 [2; 2] [1; 2; 3; 4]%Z)
                 empty_device
  = (Raise (AssertionError (ShapeMessage [4] [2; 2])), empty_device)
  ∧ GPUArray_get (array_at 0 [2; 2])
      (snd (set_from_numpy (array_at 0 [2; 2])
              (host_f64 [2; 2] [1; 2; 3; 4]%Z) empty_device))
    = astype_float32 (host_f64 [2; 2] [1; 2; 3; 4]%Z).
Proof.
  split.
  - apply (set_from_numpy_shape_check (array_at 0 [4])
             (host_f64 [2; 2] [1; 2; 3; 4]%Z) empty_device).
    simpl. discriminate.
  - apply (set_from_numpy_shape_check (array_at 0 [2; 2])
             (host_f64 [2; 2] [1; 2; 3; 4]%Z) empty_device);
      reflexivity.
Defined.

(** ** Upload and read back *)

(** C5. For a finite host array [x], [create_from_numpy(x)] succeeds and
    [get_numpy_copy] of the array it returns gives
    [x.astype(float32)]: the same array, and equal to it under numpy's
    elementwise [==]. *)
Theorem upload_readback (x : ndarray) (d : device) :
  nd_wf x → nd_finite x →
  ∃ mem d',
    create_from_numpy x d = (Ok mem, d')
    ∧ ∃ y, get_numpy_copy (PyGPUArray mem) d' = (Ok y, d')
           ∧ y = astype_float32 x
           ∧ array_equal y (astype_float32 x) = true.
Proof.
  intros Hwf Hfin. unfold create_from_numpy, gpuarray_to_gpu.
  eexists _, _. split; [reflexivity|].
  eexists. split; [reflexivity|].
  assert (∀ y, y = astype_float32 x → array_equal y (astype_float32 x) = true)
    as Heq.
  { intros y ->. unfold array_equal.
    rewrite bool_decide_eq_true_2 by done.
    by rewrite all_eqb_refl by (by apply astype_float32_not_nan). }
  assert (∀ y : ndarray, y = astype_float32 x →
            y = astype_float32 x ∧ array_equal y (astype_float32 x) = true)
    as Hboth by (intros y Hy; split; [done | by apply Heq]).
  apply Hboth.
  apply GPUArray_get_set; [done | done | by apply astype_float32_wf].
Qed.

(** A 2x2 array of doubles goes up and comes back as floats. *)
Lemma upload_readback_witness :
  ∃ mem d',
    create_from_numpy (host_f64 [2; 2] [1; -2; 3; 40]%Z) empty_device
    = (Ok mem, d')
    ∧ ∃ y, get_numpy_copy (PyGPUArray mem) d' = (Ok y, d')
           ∧ y = astype_float32 (host_f64 [2; 2] [1; -2; 3; 40]%Z)
           ∧ array_equal y
               (astype_float32 (host_f64 [2; 2] [1; -2; 3; 40]%Z)) = true.
Proof.
  apply upload_readback.
  - reflexivity.
  - repeat constructor.
Defined.

Example upload_readback_example :
  nd_data (astype_float32 (host_f64 [2; 2] [1; -2; 3; 40]%Z))
  = [f32 1; f32 (-2); f32 3; f32 40].
Proof. vm_compute. reflexivity. Qed.

(** ** [sum_t] *)



Example sum_t_axis_example :
  nd_data (GPUArray_get (array_at 6 [3])
             (snd (sum_t reference_sum (array_at 0 [2; 3]) (Some 0%Z)
                     (array_at 6 [3])
                     six_device)))
  = map f32 [5; 7; 9]%Z.
Proof. vm_compute. reflexivity. Qed.

(** ** [mult_mv] *)

(** C6. For operands of one shape, [mult_mv(m, v, out)] is the call
    [mult_tt(m, v, out)], whatever the vendor's broadcast routine does.
    Where the broadcast is a no-op, the operands being single rows of
    shape [(1, n)], the result is also the broadcast product
    [m[0, c] * v[c]] of the specification. *)
Theorem mult_mv_equal_shapes
    (cumisc_mult_matvec : GPUArray → GPUArray → GPUArray → py device unit)
    (m v out : GPUArray) (d : device) :
  shape m = shape v →
  mult_mv cumisc_mult_matvec m v out d = mult_tt m v out d
  ∧ ∀ n i, shape m = [1; n] → i < n →
      rd (snd (mult_mv cumisc_mult_matvec m v out d)) out i
      = broadcast_mult_spec d m v n i.
Proof.
  intros Hs. unfold mult_mv. rewrite bool_decide_eq_true_2 by done.
  split; [done|]. intros n i Hm Hi.
  unfold mult_tt, run, mult_kernel; cbn [snd].
  rewrite elementwise_target.
  - unfold broadcast_mult_spec. by rewrite Nat.mod_small.
  - unfold mem_size, size. rewrite Hm; simpl. lia.
Qed.

(** Two rows of shape (1, 3), with a vendor routine that always fails. *)
Lemma mult_mv_equal_shapes_witness :
  mult_mv (λ _ _ _, raise ValueError) (array_at 0 [1; 3])
          (array_at 3 [1; 3]) (array_at 6 [1; 3])
          six_device
  = mult_tt (array_at 0 [1; 3]) (array_at 3 [1; 3]) (array_at 6 [1; 3])
            six_device
  ∧ rd (snd (mult_mv (λ _ _ _, raise ValueError) (array_at 0 [1; 3])
               (array_at 3 [1; 3]) (array_at 6 [1; 3])
               six_device))
       (array_at 6 [1; 3]) 2
    = f32 18.
Proof.
  destruct (mult_mv_equal_shapes (λ _ _ _, raise ValueError)
              (array_at 0 [1; 3]) (array_at 3 [1; 3]) (array_at 6 [1; 3])
              six_device eq_refl)
    as [Heq Hb].
  split; [exact Heq|].
  rewrite (Hb 3 2 eq_refl) by lia. vm_compute. reflexivity.
Defined.

(** ** The convolution bridge *)

Lemma self_is_unbound : "self"%string ∉ module_globals.
Proof.
  intros H. apply (bool_decide_eq_true_2 _) in H. vm_compute in H.
  discriminate H.
Qed.

(** C3 (the code departs from the claim).  Every call of
    [conv2d_backward_batch] creates one tensor descriptor and then raises
    [NameError] on [self]: no descriptor is configured, no gradient is
    computed, and the descriptor that was created stays live. *)
Theorem conv2d_backward_batch_raises
    (out_deltas inputs in_deltas weights bias weight_deltas
     bias_deltas : GPUArray) (pad : nat) (stride : nat * nat)
    (s : cudnn_state) :
  conv2d_backward_batch out_deltas inputs in_deltas weights bias
    weight_deltas bias_deltas pad stride s
  = (Raise (NameError "self"),
     {| next_desc := S (next_desc s);
        live := next_desc s :: live s;
        trace := trace s ++ [CreateTensorDescriptor (next_desc s)] |}).
Proof. reflexivity. Qed.

Lemma filter_fresh (l : list nat) (n x : nat) :
  Forall (λ y, y < n) l → n ≤ x → filter (λ y, y ≠ x) l = l.
Proof.
  intros Hl Hx. induction Hl as [|y l Hy _ IH]; [done|].
  rewrite filter_cons_True by lia. by rewrite IH.
Qed.

(** The forward path, which does take [self]: when its three checks pass
    it creates five descriptors, makes the two library calls and releases
    every descriptor it created. *)
Lemma conv2d_forward_batch_releases output_dim algo self
    inputs weights bias outputs pad stride s w0 o1 :
  output_dim (shape inputs) (shape weights) pad stride = shape outputs →
  shape weights !! 0 = Some w0 → w0 = size bias →
  shape outputs !! 1 = Some o1 → o1 = size bias →
  Forall (λ y, y < next_desc s) (live s) →
  let r := conv2d_forward_batch output_dim algo self inputs weights bias
             outputs pad stride s in
  fst r = Ok tt
  ∧ live (snd r) = live s
  ∧ next_desc (snd r) = 5 + next_desc s
  ∧ ∃ pre post x w c y b,
      trace (snd r)
      = trace s ++ pre
        ++ [ConvolutionForward (cudnn_context self) x (gpudata inputs) w
              (gpudata weights) c algo y (gpudata outputs);
            AddTensor (cudnn_context self) (cudnn_addmode self) b
              (gpudata bias) y (gpudata outputs)] ++ post.
Proof.
  intros Hdim Hw0 -> Ho1 -> Hlive r. subst r.
  destruct s as [n lv tr]; cbn [next_desc live trace] in *.
  unfold conv2d_forward_batch, shape_at.
  rewrite Hdim, Hw0, Ho1.
  cbv [bind emit run ret assert_
       cudnnCreateTensorDescriptor cudnnCreateFilterDescriptor
       cudnnCreateConvolutionDescriptor cudnnDestroyTensorDescriptor
       cudnnDestroyFilterDescriptor cudnnDestroyConvolutionDescriptor
       create destroy fst snd next_desc live trace].
  rewrite !bool_decide_eq_true_2 by done.
  cbv [fst snd next_desc live trace].
  split; [done|]. split; [|split; [done|]].
  - repeat (rewrite filter_cons; case_decide; try lia).
    by rewrite !(filter_fresh lv n) by (done || lia).
  - rewrite <- !app_assoc. simpl.
    eexists [_; _; _; _; _; _; _; _; _; _], [_; _; _; _; _], _, _, _, _, _.
    reflexivity.
Qed.

(** A forward call on 4-D shapes whose checks pass, from a state with
    nothing created: it ends with no live descriptor. *)
Example conv2d_forward_batch_example :
  live (snd (conv2d_forward_batch sample_output_dim 0 sample_attrs
               (array_at 0 [1; 1; 5; 5]) (array_at 25 [2; 1; 3; 3])
               (array_at 43 [2]) (array_at 45 [1; 2; 3; 3]) 0 (1, 1)
               fresh_cudnn))
  = []
  ∧ fst (conv2d_forward_batch sample_output_dim 0 sample_attrs
           (array_at 0 [1; 1; 5; 5]) (array_at 25 [2; 1; 3; 3])
           (array_at 43 [2]) (array_at 45 [1; 2; 3; 3]) 0 (1, 1)
           fresh_cudnn)
    = Ok tt.
Proof. vm_compute. done. Qed.

(** The backward call on the same shapes: one descriptor created, then
    the [NameError]. *)
Example conv2d_backward_batch_example :
  conv2d_backward_batch (array_at 45 [1; 2; 3; 3])
    (array_at 0 [1; 1; 5; 5]) (array_at 63 [1; 1; 5; 5])
    (array_at 25 [2; 1; 3; 3]) (array_at 43 [2])
    (array_at 88 [2; 1; 3; 3]) (array_at 106 [2]) 0 (1, 1) fresh_cudnn
  = (Raise (NameError "self"),
     {| next_desc := 1; live := [0];
        trace := [CreateTensorDescriptor 0] |}).
Proof. reflexivity. Qed.

(** ** Checks of the model against the documented behaviour *)

(** [ones(S)] read back is all ones. *)
Example ones_example :
  (a <- ones [2; 2] ;; get_numpy_copy (PyGPUArray a)) empty_device
  = (Ok {| nd_dtype := np_float32; nd_shape := [2; 2];
           nd_data := map f32 [1; 1; 1; 1]%Z |},
     device_of (map f32 [1; 1; 1; 1]%Z)).
Proof. vm_compute. reflexivity. Qed.

(** [rel] on [[-2; -1; 0; 1; 2]] gives [[0; 0; 0; 1; 2]]. *)
Example rel_example :
  nd_data (GPUArray_get (array_at 5 [5])
             (snd (rel (array_at 0 [5]) (array_at 5 [5]) relu_device)))
  = map f32 [0; 0; 0; 1; 2]%Z.
Proof. vm_compute. reflexivity. Qed.

(** [rel_deriv] with that output and [dy] all ones gives
    [[0; 0; 0; 1; 1]]. *)
Example rel_deriv_example :
  nd_data
    (GPUArray_get (array_at 15 [5])
       (snd ((rel (array_at 0 [5]) (array_at 5 [5]) ;;
              rel_deriv (array_at 0 [5]) (array_at 5 [5])
                        (array_at 10 [5]) (array_at 15 [5]))
               relu_device)))
  = map f32 [0; 0; 0; 1; 1]%Z.
Proof. vm_compute. reflexivity. Qed.

(** [sigmoid_deriv] with [y = 0.5] and [dy = 1] gives [0.25]. *)
Example sigmoid_deriv_example :
  rd (snd (sigmoid_deriv (array_at 0 [1]) (array_at 1 [1])
             (array_at 2 [1]) (array_at 3 [1])
             (device_of [f32 0; F32.div (f32 1) (f32 2); f32 1; f32 9])))
     (array_at 3 [1]) 0
  = F32.div (f32 1) (f32 4).
Proof. vm_compute. reflexivity. Qed.

(** * More of the handler *)

(** ** Allocation, [fill] and upload *)

Lemma GPUArray_get_write a l d :
  length l = size a →
  GPUArray_get a (write_cells (gpudata a) l d) = host_f32 (shape a) l.
Proof.
  intros Hl. unfold GPUArray_get, host_f32. f_equal.
  rewrite <- Hl. apply read_write_cells.
Qed.

Lemma GPUArray_get_ext a d d' :
  (∀ i, i < size a → rd d' a i = rd d a i) →
  GPUArray_get a d' = GPUArray_get a d.
Proof.
  intros H. unfold GPUArray_get. f_equal. unfold read_cells.
  apply map_ext_in. intros k Hk. apply in_seq in Hk. apply H. lia.
Qed.

Lemma read_cells_same_cells d d' p n :
  cells d = cells d' → read_cells d p n = read_cells d' p n.
Proof. intros H. unfold read_cells, load. by rewrite H. Qed.

Lemma gpuarray_zeros_get s d :
  shape (fst (gpuarray_zeros s d)) = s
  ∧ GPUArray_get (fst (gpuarray_zeros s d)) (snd (gpuarray_zeros s d))
    = host_f32 s (replicate (prod s) F32.zero).
Proof.
  unfold gpuarray_zeros; cbn [fst snd]. split; [done|].
  unfold GPUArray_get, host_f32; cbn [gpudata shape]. f_equal.
  unfold size; cbn [shape].
  rewrite (read_cells_same_cells _
             (write_cells (brk d) (replicate (prod s) F32.zero) d))
    by done.
  rewrite <- (length_replicate (prod s) F32.zero) at 2.
  apply read_write_cells.
Qed.


Lemma fill_get mem val d :
  GPUArray_get mem (snd (fill mem val d))
  = host_f32 (shape mem) (replicate (size mem) val).
Proof.
  unfold fill, run; cbn [snd]. apply GPUArray_get_write.
  apply length_replicate.
Qed.



Lemma allocated_unchanged a d d' :
  allocated d a → (∀ p, p < brk d → load d' p = load d p) →
  GPUArray_get a d' = GPUArray_get a d.
Proof.
  intros Ha H. apply GPUArray_get_ext. intros i Hi. unfold rd.
  apply H. unfold allocated in Ha. lia.
Qed.



Lemma set_from_numpy_cases mem arr d :
  set_from_numpy mem arr d
  = (Raise (AssertionError (ShapeMessage (shape mem) (nd_shape arr))), d)
  ∨ (shape mem = nd_shape arr
     ∧ set_from_numpy mem arr d
       = (Ok tt, GPUArray_set mem (astype_float32 arr) d)).
Proof.
  unfold set_from_numpy, assert_, bind, raise, ret, run.
  case_bool_decide; [right | left]; done.
Qed.

(** X5. [set_from_numpy(mem, arr)] changes no cell outside [mem],
    whether it succeeds or raises. *)
Theorem set_from_numpy_frame (mem : GPUArray) (arr : ndarray)
    (d : device) (p : nat) :
  nd_wf arr → ¬ in_region mem p →
  load (snd (set_from_numpy mem arr d)) p = load d p.
Proof.
  intros Hwf Hp.
  destruct (set_from_numpy_cases mem arr d) as [-> | [Hs ->]];
    [done|]. cbn [snd].
  unfold GPUArray_set, memcpy_htod. apply load_write_cells_outside.
  apply astype_float32_wf in Hwf. unfold nd_wf in Hwf.
  cbn [nd_shape astype_float32] in Hwf.
  unfold in_region, size in Hp. rewrite Hwf, <- Hs. lia.
Qed.

Lemma set_from_numpy_frame_witness :
  load (snd (set_from_numpy (array_at 0 [2])
               (host_f64 [2] [7; 8]%Z) six_device)) 2
  = f32 3.
Proof.
  rewrite set_from_numpy_frame.
  - reflexivity.
  - reflexivity.
  - unfold in_region. vm_compute. lia.
Defined.

(** ** Order facts for the activation and clipping kernels *)

Lemma SFltb_asym x y : SFltb x y = true → SFltb y x = false.
Proof.
  intros H. destruct (SFltb_not_nan _ _ H) as [Hx Hy].
  apply SFltb_key in H; [|done..].
  destruct (SFltb y x) eqn:H'; [|done].
  apply SFltb_key in H'; [|done..].
  revert H H'. unfold lex_lt.
  destruct (key x) as [[x1 x2] x3], (key y) as [[y1 y2] y3]. lia.
Qed.

Lemma SFltb_irrefl x : SFltb x x = false.
Proof.
  destruct (SFltb x x) eqn:H; [|done]. by rewrite (SFltb_asym _ _ H) in H.
Qed.

Lemma SFleb_not_ltb x y :
  F32.is_nan x = false → F32.is_nan y = false →
  SFleb x y = negb (SFltb y x).
Proof.
  intros Hx Hy. unfold SFleb, SFltb, SFcompare.
  destruct x as [sx|sx| |sx mx ex], y as [sy|sy| |sy my ey];
    try discriminate; try destruct sx; try destruct sy; simpl;
    try reflexivity;
    split_compare; try reflexivity; try lia.
Qed.

(** ** Rectifier *)

Lemma rel_cell x y d i :
  i < size x →
  rd (rel_kernel x y d) y i
  = if F32.gtb (rd d x i) F32.zero then rd d x i else F32.zero.
Proof.
  intros Hi. unfold rel_kernel. by rewrite elementwise_target.
Qed.

(** X6. The output of [rel(x, y)] at every index of [x] is [x[i]]
    itself when [x[i] > 0] and [+0.0] otherwise; it is never NaN and
    never below zero, whatever [x] holds (NaN and negative inputs give
    [+0.0]). *)
Theorem rel_output_nonnegative (x y : GPUArray) (d : device) (i : nat) :
  i < size x →
  rd (snd (rel x y d)) y i
  = (if F32.gtb (rd d x i) F32.zero then rd d x i else F32.zero)
  ∧ F32.is_nan (rd (snd (rel x y d)) y i) = false
  ∧ F32.ltb (rd (snd (rel x y d)) y i) F32.zero = false.
Proof.
  intros Hi. unfold rel, run; cbn [snd]. rewrite rel_cell by done.
  split; [done|].
  unfold F32.gtb, F32.ltb. destruct (SFltb F32.zero (rd d x i)) eqn:H.
  - destruct (SFltb_not_nan _ _ H) as [_ Hx].
    split; [done|]. by apply SFltb_asym.
  - done.
Qed.

Lemma rel_output_nonnegative_witness :
  rd (snd (rel (array_at 0 [5]) (array_at 5 [5]) relu_device))
     (array_at 5 [5]) 1
  = F32.zero
  ∧ F32.is_nan (rd (snd (rel (array_at 0 [5]) (array_at 5 [5])
                           relu_device)) (array_at 5 [5]) 1) = false
  ∧ F32.ltb (rd (snd (rel (array_at 0 [5]) (array_at 5 [5])
                        relu_device)) (array_at 5 [5]) 1) F32.zero
    = false.
Proof.
  apply (rel_output_nonnegative (array_at 0 [5]) (array_at 5 [5])
           relu_device 1).
  vm_compute. lia.
Defined.

(** X7. Backward after forward.  After [rel(x, y)], the gradient
    [rel_deriv(x, y, dy, dx)] lets [dy[i]] through exactly where the
    input [x[i]] was positive and is [+0.0] elsewhere, provided the
    forward output [y] has room for the launch and does not overlap
    [dy]. *)
Theorem rel_deriv_after_rel (x y dy dx : GPUArray) (d : device)
    (i : nat) :
  i < size x → i < size dy → size x ≤ size y → disjoint dy y →
  rd (snd ((rel x y ;; rel_deriv x y dy dx) d)) dx i
  = if F32.gtb (rd d x i) F32.zero then rd d dy i else F32.zero.
Proof.
  intros Hi Hdy Hroom Hdisj. unfold bind.
  pose proof (rel_cell x y d i Hi) as Hy.
  unfold rel, run; cbn [fst snd].
  unfold rel_deriv, run, rel_deriv_kernel; cbn [snd].
  rewrite elementwise_target by done.
  change (F32.of_Z 0) with F32.zero. rewrite Hy.
  assert (rd (rel_kernel x y d) dy i = rd d dy i) as ->.
  { unfold rd, rel_kernel. apply elementwise_outside.
    unfold disjoint, mem_size in *. lia. }
  unfold F32.gtb. destruct (SFltb F32.zero (rd d x i)) eqn:H.
  - by rewrite H.
  - by rewrite SFltb_irrefl.
Qed.

Lemma rel_deriv_after_rel_witness :
  rd (snd ((rel (array_at 0 [5]) (array_at 5 [5]) ;;
            rel_deriv (array_at 0 [5]) (array_at 5 [5])
                      (array_at 10 [5]) (array_at 15 [5]))
             relu_device)) (array_at 15 [5]) 3
  = f32 1.
Proof.
  rewrite rel_deriv_after_rel.
  - reflexivity.
  - vm_compute; lia.
  - vm_compute; lia.
  - vm_compute; lia.
  - unfold disjoint. vm_compute. lia.
Defined.

(** X8. The rectifier is idempotent: applying [rel] to the output of
    [rel] gives that output again. *)
Theorem rel_idempotent (x y z : GPUArray) (d : device) (i : nat) :
  i < size x → i < size y →
  rd (snd ((rel x y ;; rel y z) d)) z i = rd (snd (rel x y d)) y i.
Proof.
  intros Hx Hy. unfold bind.
  pose proof (rel_cell x y d i Hx) as Hv.
  unfold rel, run; cbn [fst snd].
  unfold rel_kernel at 1. rewrite elementwise_target by done.
  change (F32.of_Z 0) with F32.zero. rewrite Hv.
  unfold F32.gtb. destruct (SFltb F32.zero (rd d x i)) eqn:H.
  - by rewrite H.
  - by rewrite SFltb_irrefl.
Qed.

Lemma rel_idempotent_witness :
  rd (snd ((rel (array_at 0 [5]) (array_at 5 [5]) ;;
            rel (array_at 5 [5]) (array_at 10 [5])) relu_device))
     (array_at 10 [5]) 4
  = rd (snd (rel (array_at 0 [5]) (array_at 5 [5]) relu_device))
       (array_at 5 [5]) 4.
Proof. apply rel_idempotent; vm_compute; lia. Defined.

(** ** Clipping with ordered bounds *)

Lemma SFleb_not_nan x y :
  SFleb x y = true → F32.is_nan x = false ∧ F32.is_nan y = false.
Proof.
  unfold SFleb, SFcompare.
  destruct x as [?|?| |? ? ?], y as [?|?| |? ? ?]; simpl; try discriminate; done.
Qed.

Lemma fminf_fmaxf_ordered lo hi a :
  SFleb lo hi = true →
  F32.is_nan (F32.fminf (F32.fmaxf a lo) hi) = false
  ∧ SFltb (F32.fminf (F32.fmaxf a lo) hi) lo = false
  ∧ SFltb hi (F32.fminf (F32.fmaxf a lo) hi) = false
  ∧ (F32.is_nan a = true → F32.fminf (F32.fmaxf a lo) hi = lo)
  ∧ (F32.is_nan a = false → SFltb a lo = false → SFltb hi a = false →
     F32.fminf (F32.fmaxf a lo) hi = a).
Proof.
  intros Hle. destruct (SFleb_not_nan _ _ Hle) as [Hlo Hhi].
  rewrite SFleb_not_ltb in Hle by done. apply negb_true_iff in Hle.
  assert (F32.fminf lo hi = lo) as Hlohi.
  { unfold F32.fminf. by rewrite Hlo, Hhi, Hle. }
  unfold F32.fmaxf. destruct (F32.is_nan a) eqn:Ha.
  { rewrite Hlohi, Hlo, Hle, SFltb_irrefl. done. }
  rewrite Hlo. destruct (SFltb a lo) eqn:Hcmp.
  { rewrite Hlohi, Hlo, Hle, SFltb_irrefl. done. }
  unfold F32.fminf. rewrite Ha, Hhi.
  destruct (SFltb hi a) eqn:Hcmp'.
  - rewrite Hhi, Hle, SFltb_irrefl. done.
  - rewrite Ha, Hcmp, Hcmp'. done.
Qed.

(** X9. With ordered bounds [a_min <= a_max], every element that
    [clip_t] writes is a number within the bounds (never NaN, not below
    [a_min], not above [a_max]); a NaN input becomes [a_min], and an
    input already within the bounds is copied unchanged. *)
Theorem clip_t_within_bounds (a : GPUArray) (a_min a_max : float32)
    (out : GPUArray) (d : device) (i : nat) :
  i < size a → SFleb a_min a_max = true →
  F32.is_nan (rd (snd (clip_t a a_min a_max out d)) out i) = false
  ∧ F32.ltb (rd (snd (clip_t a a_min a_max out d)) out i) a_min = false
  ∧ F32.gtb (rd (snd (clip_t a a_min a_max out d)) out i) a_max = false
  ∧ (F32.is_nan (rd d a i) = true →
     rd (snd (clip_t a a_min a_max out d)) out i = a_min)
  ∧ (F32.is_nan (rd d a i) = false →
     F32.ltb (rd d a i) a_min = false →
     F32.gtb (rd d a i) a_max = false →
     rd (snd (clip_t a a_min a_max out d)) out i = rd d a i).
Proof.
  intros Hi Hle. unfold clip_t, run, clip_kernel; cbn [snd].
  rewrite elementwise_target by done.
  by apply fminf_fmaxf_ordered.
Qed.

(** Bounds 0 and 1 on [[7; -5; NaN]]: the NaN becomes 0. *)
Lemma clip_t_within_bounds_witness :
  F32.is_nan (rd (snd (clip_t (array_at 0 [3]) (f32 0) (f32 1)
                         (array_at 3 [3]) clip_device))
                (array_at 3 [3]) 2) = false
  ∧ rd (snd (clip_t (array_at 0 [3]) (f32 0) (f32 1) (array_at 3 [3])
               clip_device)) (array_at 3 [3]) 2
    = f32 0.
Proof.
  destruct (clip_t_within_bounds (array_at 0 [3]) (f32 0) (f32 1)
              (array_at 3 [3]) clip_device 2) as (H1 & _ & _ & H2 & _).
  - vm_compute; lia.
  - reflexivity.
  - split; [exact H1 | apply H2; reflexivity].
Defined.

(** ** Small integers are exact in float32 *)

Lemma digits2_pos_lower p : (2 ^ (Zpos (digits2_pos p) - 1) ≤ Zpos p)%Z.
Proof.
  induction p as [p IH|p IH|]; simpl digits2_pos; [| |done].
  - rewrite Pos2Z.inj_succ.
    replace (Z.succ (Zpos (digits2_pos p)) - 1)%Z
      with (Z.succ (Zpos (digits2_pos p) - 1))%Z by lia.
    rewrite Z.pow_succ_r by lia. lia.
  - rewrite Pos2Z.inj_succ.
    replace (Z.succ (Zpos (digits2_pos p)) - 1)%Z
      with (Z.succ (Zpos (digits2_pos p) - 1))%Z by lia.
    rewrite Z.pow_succ_r by lia. lia.
Qed.

Lemma digits2_pos_small p :
  (Zpos p < 2 ^ 24)%Z → (Zpos (digits2_pos p) ≤ 24)%Z.
Proof.
  intros Hp. pose proof (digits2_pos_lower p) as Hl.
  destruct (Z.le_gt_cases (Zpos (digits2_pos p)) 24) as [|Hgt]; [done|].
  assert (2 ^ 24 ≤ 2 ^ (Zpos (digits2_pos p) - 1))%Z
    by (apply Z.pow_le_mono_r; lia).
  lia.
Qed.

Lemma iter_xO_value p k : (Zpos (Pos.iter xO p k) = Zpos p * 2 ^ Zpos k)%Z.
Proof.
  induction k as [|k IH] using Pos.peano_ind.
  - simpl. lia.
  - rewrite Pos.iter_succ, Pos2Z.inj_xO, IH, Pos2Z.inj_succ.
    rewrite Z.pow_succ_r by lia. lia.
Qed.

Lemma digits2_pos_iter_xO p k :
  digits2_pos (Pos.iter xO p k) = (digits2_pos p + k)%positive.
Proof.
  induction k as [|k IH] using Pos.peano_ind.
  - simpl. by rewrite Pos.add_1_r.
  - rewrite Pos.iter_succ. simpl. rewrite IH. lia.
Qed.

(** The mantissa of [float_of_pos p]: [p] shifted to 24 digits. *)
Lemma shl_align_24 p :
  (Zpos (digits2_pos p) ≤ 24)%Z →
  let m := fst (shl_align p 0 (Zpos (digits2_pos p) - 24)) in
  (Zpos m = Zpos p * 2 ^ (24 - Zpos (digits2_pos p)))%Z
  ∧ Zpos (digits2_pos m) = 24%Z
  ∧ shl_align p 0 (Zpos (digits2_pos p) - 24)
    = (m, (Zpos (digits2_pos p) - 24)%Z).
Proof.
  intros Hd m. subst m. unfold shl_align.
  destruct (Zpos (digits2_pos p) - 24 - 0)%Z as [|k|k] eqn:Hk; [|lia|].
  - cbn [fst]. assert (Zpos (digits2_pos p) = 24%Z) as H24 by lia.
    rewrite H24. simpl. split; [lia|]. split; [done|].
    f_equal. 
  - cbn [fst]. rewrite iter_xO_value, digits2_pos_iter_xO.
    split; [f_equal; f_equal; lia|]. split; [lia|done].
Qed.

Lemma of_Z_pos p :
  (Zpos p < 2 ^ 24)%Z → F32.of_Z (Zpos p) = float_of_pos p.
Proof.
  intros Hp. pose proof (digits2_pos_small p Hp) as Hd.
  destruct (shl_align_24 p Hd) as (Hm & Hdm & Hsh).
  unfold F32.of_Z, binary_normalize, binary_round, float_of_pos.
  assert (fexp F32.prec F32.emax (Zpos (digits2_pos p) + 0)
          = (Zpos (digits2_pos p) - 24)%Z) as ->.
  { unfold fexp, emin, F32.prec, F32.emax. lia. }
  rewrite Hsh.
  set (m := fst (shl_align p 0 (Zpos (digits2_pos p) - 24))) in *.
  set (e := (Zpos (digits2_pos p) - 24)%Z) in *.
  assert (fexp F32.prec F32.emax (Zdigits2 (Zpos m) + e) - e = 0)%Z
    as Hshift.
  { unfold fexp, emin, F32.prec, F32.emax. cbn [Zdigits2].
    rewrite Hdm. subst e. lia. }
  unfold binary_round_aux, shr_fexp.
  rewrite Hshift. cbn [shr shr_record_of_loc shr_m loc_of_shr_record
                       round_nearest_even].
  rewrite Hshift. cbn [shr shr_record_of_loc shr_m fst].
  assert ((e <=? F32.emax - F32.prec)%Z = true) as ->; [|done].
  apply Z.leb_le. unfold F32.emax, F32.prec. subst e. lia.
Qed.

(** Converting the float of a small integer back gives the integer. *)
Lemma int_of_float_of_pos p :
  (Zpos p < 2 ^ 24)%Z → int_of_float (float_of_pos p) = Some (Zpos p).
Proof.
  intros Hp. pose proof (digits2_pos_small p Hp) as Hd.
  destruct (shl_align_24 p Hd) as (Hm & _ & _).
  unfold int_of_float, float_of_pos.
  set (m := fst (shl_align p 0 (Zpos (digits2_pos p) - 24))) in *.
  remember (Zpos (digits2_pos p) - 24)%Z as e eqn:He0.
  assert ((if (0 <=? e)%Z then Zpos m * 2 ^ e else Zpos m / 2 ^ (- e))%Z
          = Zpos p) as ->.
  { destruct (Z.leb_spec 0 e) as [He|He].
    - assert (e = 0%Z) as -> by lia.
      rewrite Hm. replace (24 - Zpos (digits2_pos p))%Z with 0%Z by lia.
      simpl. lia.
    - rewrite Hm. replace (24 - Zpos (digits2_pos p))%Z with (- e)%Z
        by lia.
      apply Z.div_mul. apply Z.pow_nonzero; lia. }
  assert (((- 2 ^ 31 <=? Zpos p) && (Zpos p <? 2 ^ 31))%Z = true) as ->;
    [|done].
  apply andb_true_iff. split; [apply Z.leb_le | apply Z.ltb_lt]; lia.
Qed.

(** Two small integers have equal floats only if they are equal. *)
Lemma float_of_pos_eqb p q :
  (Zpos p < 2 ^ 24)%Z → (Zpos q < 2 ^ 24)%Z →
  SFeqb (float_of_pos p) (float_of_pos q) = true → p = q.
Proof.
  intros Hp Hq. pose proof (digits2_pos_small p Hp) as Hdp.
  pose proof (digits2_pos_small q Hq) as Hdq.
  destruct (shl_align_24 p Hdp) as (Hmp & _ & _).
  destruct (shl_align_24 q Hdq) as (Hmq & _ & _).
  unfold SFeqb, SFcompare, float_of_pos.
  set (mp := fst (shl_align p 0 (Zpos (digits2_pos p) - 24))) in *.
  set (mq := fst (shl_align q 0 (Zpos (digits2_pos q) - 24))) in *.
  destruct (Z.compare_spec (Zpos (digits2_pos p) - 24)
                           (Zpos (digits2_pos q) - 24)) as [He| |];
    [|discriminate..].
  change (Pos.compare_cont Eq mp mq) with (Pos.compare mp mq).
  destruct (Pos.compare_spec mp mq) as [Hmeq| |]; [|discriminate..].
  intros _. rewrite Hmeq in Hmp. rewrite Hmp in Hmq.
  replace (Zpos (digits2_pos p)) with (Zpos (digits2_pos q)) in Hmq by lia.
  apply Z.mul_reg_r in Hmq; [lia|]. apply Z.pow_nonzero; lia.
Qed.

(** The comparison of the floats of two small naturals decides their
    equality. *)
Lemma of_nat_eqb (a b : nat) :
  (Z.of_nat a < 2 ^ 24)%Z → (Z.of_nat b < 2 ^ 24)%Z →
  F32.eqb (F32.of_Z (Z.of_nat a)) (F32.of_Z (Z.of_nat b))
  = bool_decide (a = b).
Proof.
  intros Ha Hb. unfold F32.eqb.
  case_bool_decide as Hab.
  - subst b. apply SFeqb_refl.
    destruct (Z.of_nat a) as [|p|p] eqn:E; [done| |lia].
    by rewrite of_Z_pos.
  - destruct (Z.of_nat a) as [|p|p] eqn:Ea; [| |lia];
      destruct (Z.of_nat b) as [|q|q] eqn:Eb; try lia.
    + rewrite of_Z_pos by done. done.
    + rewrite of_Z_pos by done. done.
    + rewrite !of_Z_pos by done.
      destruct (SFeqb (float_of_pos p) (float_of_pos q)) eqn:E; [|done].
      apply float_of_pos_eqb in E; [|done..]. subst q.
      exfalso. apply Hab. lia.
Qed.

(** ** [binarize_v] on integer indices *)

Lemma binarize_v_cell v out rows cols d r c :
  shape out = [rows; cols] → r < rows → c < cols →
  binarize_v v out d = (Ok tt, binarize_v_kernel out v rows cols d)
  ∧ rd (binarize_v_kernel out v rows cols d) out (r * cols + c)
    = if F32.eqb (rd d v r) (F32.of_Z (Z.of_nat c))
      then F32.one else F32.zero.
Proof.
  intros Hs Hr Hc. unfold binarize_v, shape_at, bind, run, ret.
  rewrite Hs; simpl. split; [done|].
  unfold binarize_v_kernel. rewrite elementwise_target.
  - rewrite Nat.div_add_l, Nat.div_small, Nat.add_0_r by lia.
    replace ((r * cols + c) mod cols) with c; [done|].
    rewrite Nat.add_comm, Nat.Div0.mod_add. by rewrite Nat.mod_small.
  - unfold mem_size, size. rewrite Hs; simpl. nia.
Qed.

(** X10. Rows of a true one-hot matrix.  On a [(rows, cols)] output with
    at most [2^24] columns: when [v[r]] holds the integer [k] (below
    [2^24]) row [r] is [1.0] at column [k] and [0.0] at every other
    column, so a [k] beyond the last column gives an all-zero row; a
    NaN in [v[r]] also gives an all-zero row. *)
Theorem binarize_v_integer_index (v out : GPUArray) (rows cols : nat)
    (d : device) (r c k : nat) :
  shape out = [rows; cols] → r < rows → c < cols →
  (Z.of_nat cols ≤ 2 ^ 24)%Z →
  ((Z.of_nat k < 2 ^ 24)%Z → rd d v r = F32.of_Z (Z.of_nat k) →
   rd (snd (binarize_v v out d)) out (r * cols + c)
   = if bool_decide (c = k) then F32.one else F32.zero)
  ∧ (F32.is_nan (rd d v r) = true →
     rd (snd (binarize_v v out d)) out (r * cols + c) = F32.zero).
Proof.
  intros Hs Hr Hc Hcols.
  destruct (binarize_v_cell v out rows cols d r c Hs Hr Hc) as [-> Hcell].
  cbn [snd]. rewrite Hcell. split.
  - intros Hk ->. rewrite of_nat_eqb by lia.
    by rewrite (bool_decide_ext (k = c) (c = k)).
  - intros Hnan. by destruct (rd d v r).
Qed.

Lemma binarize_v_integer_index_witness :
  rd (snd (binarize_v (array_at 0 [2]) (array_at 2 [2; 3])
             one_hot_device)) (array_at 2 [2; 3]) (0 * 3 + 1)
  = F32.zero.
Proof.
  destruct (binarize_v_integer_index (array_at 0 [2]) (array_at 2 [2; 3])
              2 3 one_hot_device 0 1 2 eq_refl) as [H _].
  - lia.
  - lia.
  - lia.
  - rewrite H; [reflexivity | lia | reflexivity].
Defined.

(** X11. [binarize_v(v, out)] raises [IndexError], before anything is
    written, exactly when [out] has fewer than two dimensions. *)
Theorem binarize_v_rank_check (v out : GPUArray) (d : device) :
  (length (shape out) < 2 → binarize_v v out d = (Raise IndexError, d))
  ∧ (2 ≤ length (shape out) → fst (binarize_v v out d) = Ok tt).
Proof.
  unfold binarize_v, shape_at, bind, run, ret, raise.
  destruct (shape out) as [|n0 [|n1 s]]; simpl; split; intros H;
    try lia; done.
Qed.

Lemma binarize_v_rank_check_witness :
  binarize_v (array_at 0 [2]) (array_at 2 [6]) one_hot_device
  = (Raise IndexError, one_hot_device).
Proof.
  apply (binarize_v_rank_check (array_at 0 [2]) (array_at 2 [6])
           one_hot_device).
  simpl. lia.
Defined.

(** ** [index_m_by_v] *)

Lemma int_of_float_of_nat (k : nat) :
  (Z.of_nat k < 2 ^ 24)%Z →
  int_of_float (F32.of_Z (Z.of_nat k)) = Some (Z.of_nat k).
Proof.
  intros Hk. destruct (Z.of_nat k) as [|p|p] eqn:E; [done| |lia].
  rewrite of_Z_pos by done. by apply int_of_float_of_pos.
Qed.

Lemma index_m_by_v_kernel_defined out v m nrows ncols d (idx : nat → nat) :
  (∀ i, i < size out →
        (Z.of_nat (idx i) < 2 ^ 24)%Z
        ∧ rd d v i = F32.of_Z (Z.of_nat (idx i))) →
  index_m_by_v_kernel out v m nrows ncols d
  = Some (write_cells (gpudata out)
            (map (λ i, rd d m (i * ncols + idx i)) (seq 0 (size out))) d).
Proof.
  intros Hv. unfold index_m_by_v_kernel, mem_size.
  erewrite mapM_Some_2; [reflexivity|].
  apply Forall2_fmap_r, Forall_Forall2_diag, Forall_forall.
  intros i Hi. apply list_elem_of_In, in_seq in Hi.
  destruct (Hv i) as [Hk ->]; [lia|].
  rewrite int_of_float_of_nat by done. simpl.
  destruct (Z.leb_spec 0 (Z.of_nat (idx i))); [|lia].
  by rewrite Nat2Z.id.
Qed.

Lemma index_m_by_v_run m v out rows cols idx d :
  shape m = [rows; cols] →
  (∀ i, i < size out →
        (Z.of_nat (idx i) < 2 ^ 24)%Z
        ∧ rd d v i = F32.of_Z (Z.of_nat (idx i))) →
  ∃ d', index_m_by_v m v out d = Some (Ok tt, d')
        ∧ (∀ i, i < size out → rd d' out i = rd d m (i * cols + idx i))
        ∧ (∀ p, ¬ in_region out p → load d' p = load d p).
Proof.
  intros Hs Hv. unfold index_m_by_v, shape_at, bind, ret.
  rewrite Hs; simpl.
  rewrite (index_m_by_v_kernel_defined out v m rows cols d idx Hv); simpl.
  eexists. split; [reflexivity|]. split.
  - intros i Hi. unfold rd at 1. apply load_write_cells_inside.
    rewrite list_lookup_fmap, lookup_seq_lt by done. done.
  - intros p Hp. apply load_write_cells_outside.
    rewrite length_map, length_seq. unfold in_region in Hp. lia.
Qed.



(** [index_m_by_v(m, v, out)] raises [IndexError], before anything is
    written, when [m] has fewer than two dimensions. *)
Lemma index_m_by_v_rank_check (m v out : GPUArray) (d : device) :
  length (shape m) < 2 →
  index_m_by_v m v out d = Some (Raise IndexError, d).
Proof.
  unfold index_m_by_v, shape_at, bind, ret, raise.
  destruct (shape m) as [|n0 [|n1 s]]; simpl; intros H; try lia; done.
Qed.

Example index_m_by_v_rank_check_example :
  index_m_by_v (array_at 0 [6]) (array_at 6 [2]) (array_at 8 [2])
    gather_device
  = Some (Raise IndexError, gather_device).
Proof. reflexivity. Qed.



(** ** [broadcast_features_t] *)

Lemma prod_singleton n : prod [n] = n.
Proof. unfold prod; simpl. lia. Qed.

(** X14. [broadcast_features_t(a, out)] runs exactly when [a] has three
    dimensions, the last of them 1, and [out] has more than two;
    otherwise it raises the [AssertionError] of the failed check before
    anything is written. *)
Theorem broadcast_features_t_checks (a out : GPUArray) (d : device) :
  (fst (broadcast_features_t a out d) = Ok tt
   ↔ (∃ t b, shape a = [t; b; 1]) ∧ 2 < length (shape out))
  ∧ (fst (broadcast_features_t a out d) ≠ Ok tt →
     broadcast_features_t a out d
     = (Raise (AssertionError NoMessage), d)).
Proof.
  unfold broadcast_features_t, assert_, shape_at, bind, ret, raise, run.
  destruct (shape a) as [|t [|b [|a2 [|x s]]]] eqn:Ha; simpl;
    try (split; [split; [discriminate | intros [(? & ? & ?) _]; discriminate]
                | done]).
  case_bool_decide as H1; cbn [fst snd].
  - subst a2. case_bool_decide as H2; cbn [fst snd].
    + split; [|done]. split; [eauto|done].
    + split; [|done]. split; [discriminate|]. intros [_ ?]. lia.
  - split; [|done]. split; [discriminate|].
    intros [(? & ? & ?) _]. congruence.
Qed.

Lemma broadcast_features_t_checks_witness :
  broadcast_features_t (array_at 0 [2; 3]) (array_at 6 [2; 3; 2])
    broadcast_device
  = (Raise (AssertionError NoMessage), broadcast_device).
Proof.
  apply (broadcast_features_t_checks (array_at 0 [2; 3])
           (array_at 6 [2; 3; 2]) broadcast_device).
  discriminate.
Defined.

(** X15. [broadcast_features_t(a, out)] repeats each element of [a]
    across the feature dimensions of [out]: with [a] of shape
    [(t, b, 1)], [out] of shape [(o0, o1, ...)] and [bs] the product of
    the dimensions of [out] from the third on, [out[k * bs + j]] is
    [a[k]] for every [k < o0 * o1] and [j < bs], and no cell outside
    [out] changes.  The leading dimensions of [a] and [out] are not
    compared. *)
Theorem broadcast_features_t_repeats (a out : GPUArray)
    (t b o0 o1 : nat) (rest : list nat) (d : device) (k j : nat) :
  shape a = [t; b; 1] → shape out = o0 :: o1 :: rest → rest ≠ [] →
  k < o0 * o1 → j < prod rest →
  fst (broadcast_features_t a out d) = Ok tt
  ∧ rd (snd (broadcast_features_t a out d)) out (k * prod rest + j)
    = rd d a k
  ∧ ∀ p, ¬ in_region out p →
      load (snd (broadcast_features_t a out d)) p = load d p.
Proof.
  intros Ha Ho Hrest Hk Hj.
  unfold broadcast_features_t, assert_, shape_at, bind, ret, run.
  rewrite Ha, Ho. cbn [length lookup list_lookup drop].
  rewrite !bool_decide_eq_true_2
    by (done || (destruct rest; [done | simpl; lia])).
  cbn [fst snd]. split; [done|].
  unfold broadcast_features_kernel.
  assert (size out = o0 * o1 * prod rest) as Hsize.
  { unfold size. rewrite Ho. unfold prod; simpl. lia. }
  split.
  - change (rd ?d' out ?i) with (rd d' (reshape out [size out]) i).
    rewrite elementwise_target.
    + unfold rd; cbn [reshape gpudata]. f_equal. f_equal.
      rewrite drop_0, Nat.div_add_l by lia.
      rewrite Nat.div_small by lia. lia.
    + unfold mem_size, size; cbn [reshape shape].
      rewrite prod_singleton. fold (size out). rewrite Hsize. nia.
  - intros p Hp. apply elementwise_outside.
    unfold mem_size, size; cbn [reshape shape gpudata].
    rewrite prod_singleton. unfold in_region, size in Hp. lia.
Qed.

(** A [(2, 3, 1)] array into a [(2, 3, 2)] output: element 4 of [a]
    lands in both features of position 4. *)
Lemma broadcast_features_t_repeats_witness :
  rd (snd (broadcast_features_t (array_at 0 [2; 3; 1])
             (array_at 6 [2; 3; 2]) broadcast_device))
     (array_at 6 [2; 3; 2]) (4 * prod [2] + 1)
  = f32 5.
Proof.
  destruct (broadcast_features_t_repeats (array_at 0 [2; 3; 1])
              (array_at 6 [2; 3; 2]) 2 3 2 3 [2] broadcast_device 4 1
              eq_refl eq_refl) as (_ & H & _).
  - discriminate.
  - lia.
  - unfold prod; simpl; lia.
  - rewrite H. reflexivity.
Defined.

(** ** The forward convolution and its descriptors *)





(** ** The softmax kernel: the row maximum *)

Lemma SFltb_false_trans a b c :
  F32.is_nan a = false → F32.is_nan b = false → F32.is_nan c = false →
  SFltb a b = false → SFltb b c = false → SFltb a c = false.
Proof.
  intros Ha Hb Hc Hab Hbc.
  destruct (SFltb a c) eqn:Hac; [|done].
  apply SFltb_key in Hac; [|done..].
  assert (¬ lex_lt (key a) (key b)) as Nab.
  { intros H. apply SFltb_key in H; [congruence|done..]. }
  assert (¬ lex_lt (key b) (key c)) as Nbc.
  { intros H. apply SFltb_key in H; [congruence|done..]. }
  exfalso. revert Hac Nab Nbc. unfold lex_lt.
  destruct (key a) as [[a1 a2] a3], (key b) as [[b1 b2] b3],
           (key c) as [[c1 c2] c3]. lia.
Qed.

Lemma max_step_spec cur val :
  F32.is_nan cur = false →
  F32.is_nan (max_step cur val) = false
  ∧ SFltb (max_step cur val) cur = false
  ∧ (F32.is_nan val = false → SFltb (max_step cur val) val = false)
  ∧ (max_step cur val = cur ∨ max_step cur val = val).
Proof.
  intros Hcur. unfold max_step, F32.gtb.
  destruct (SFltb cur val) eqn:H.
  - destruct (SFltb_not_nan _ _ H) as [_ Hval].
    repeat split; auto using SFltb_asym, SFltb_irrefl.
  - repeat split; auto using SFltb_irrefl.
Qed.

(** Folding [max_step] over a list: the result is a number, not below
    the start value nor below any number of the list, and is the start
    value or an element of the list. *)
Lemma fold_max_step_spec l :
  ∀ init, F32.is_nan init = false →
    F32.is_nan (fold_left max_step l init) = false
    ∧ SFltb (fold_left max_step l init) init = false
    ∧ (∀ v, v ∈ l → F32.is_nan v = false →
            SFltb (fold_left max_step l init) v = false)
    ∧ (fold_left max_step l init = init ∨ fold_left max_step l init ∈ l).
Proof.
  induction l as [|x l IH]; intros init Hinit; simpl.
  - repeat split; auto using SFltb_irrefl. intros v Hv. inversion Hv.
  - destruct (max_step_spec init x Hinit) as (Hn & Hge & Hx & Hor).
    destruct (IH (max_step init x) Hn) as (Hn' & Hge' & Hall & Hor').
    split; [done|]. split; [|split].
    + by apply (SFltb_false_trans _ (max_step init x)).
    + intros v Hv Hvn. apply elem_of_cons in Hv as [-> | Hv].
      * apply (SFltb_false_trans _ (max_step init x)); auto.
      * by apply Hall.
    + destruct Hor' as [-> | Hin].
      * destruct Hor as [-> | ->]; [by left | right; by left].
      * right. by right.
Qed.

Lemma fold_left_map {A B C} (f : A → B → A) (g : C → B) l :
  ∀ a, fold_left (λ acc x, f acc (g x)) l a = fold_left f (map g l) a.
Proof. induction l as [|x l IH]; intros a; simpl; [done|]. by rewrite IH. Qed.

Lemma thread_indices_lt t k i : i ∈ thread_indices t k → i < k.
Proof.
  unfold thread_indices. intros H. apply list_elem_of_fmap in H as (j & -> & Hj).
  apply list_elem_of_In, in_seq in Hj.
  pose proof (Nat.Div0.mul_div_le (k + 31 - t) 32). lia.
Qed.

Lemma thread_indices_cover c k :
  c < k → c ∈ thread_indices (c mod 32) k.
Proof.
  intros Hc. unfold thread_indices. apply list_elem_of_fmap.
  exists (c / 32). split.
  - pose proof (Nat.div_mod_eq c 32). lia.
  - apply list_elem_of_In, in_seq. split; [lia|].
    rewrite Nat.add_0_l.
    pose proof (Nat.div_mod_eq c 32) as Hdm.
    assert (c mod 32 < 32) by (apply Nat.mod_upper_bound; lia).
    unfold lt. apply Nat.div_le_lower_bound; lia.
Qed.

Lemma row_max_thread d mat k r t :
  fold_left (λ cur_max i, max_step cur_max (load d (mat + (r * k + i))))
            (thread_indices t k) neg_FLT_MAX
  = fold_left max_step
      (map (λ i, load d (mat + (r * k + i))) (thread_indices t k))
      neg_FLT_MAX.
Proof. apply fold_left_map. Qed.

(** The value [row_max] computes is a number, at least [-FLT_MAX], not
    below any number of the row (NaN elements are passed over), and is
    [-FLT_MAX] or an element of the row. *)
Lemma row_max_spec d mat k r :
  F32.is_nan (row_max d mat k r) = false
  ∧ SFltb (row_max d mat k r) neg_FLT_MAX = false
  ∧ (∀ c, c < k → F32.is_nan (load d (mat + (r * k + c))) = false →
          SFltb (row_max d mat k r) (load d (mat + (r * k + c))) = false)
  ∧ (row_max d mat k r = neg_FLT_MAX
     ∨ ∃ c, c < k ∧ row_max d mat k r = load d (mat + (r * k + c))).
Proof.
  unfold row_max.
  set (local t := fold_left (λ cur_max i,
                    max_step cur_max (load d (mat + (r * k + i))))
                    (thread_indices t k) neg_FLT_MAX).
  assert (∀ t, F32.is_nan (local t) = false
               ∧ (∀ c, c ∈ thread_indices t k →
                       F32.is_nan (load d (mat + (r * k + c))) = false →
                       SFltb (local t) (load d (mat + (r * k + c))) = false)
               ∧ (local t = neg_FLT_MAX
                  ∨ ∃ c, c < k ∧ local t = load d (mat + (r * k + c))))
    as Hlocal.
  { intros t. unfold local. rewrite row_max_thread.
    destruct (fold_max_step_spec
                (map (λ i, load d (mat + (r * k + i))) (thread_indices t k))
                neg_FLT_MAX eq_refl) as (Hn & _ & Hall & Hor).
    split; [done|]. split.
    - intros c Hc Hcn. apply Hall; [|done].
      apply list_elem_of_fmap. eauto.
    - destruct Hor as [? | Hin]; [by left|]. right.
      apply list_elem_of_fmap in Hin as (c & Hc & Hin).
      exists c. split; [by eapply thread_indices_lt | done]. }
  destruct (fold_max_step_spec (map local (seq 0 32)) neg_FLT_MAX eq_refl)
    as (Hn & Hge & Hall & Hor).
  split; [done|]. split; [done|]. split.
  - intros c Hc Hcn.
    destruct (Hlocal (c mod 32)) as (Hln & Hlall & _).
    apply (SFltb_false_trans _ (local (c mod 32))); try done.
    + apply Hall; [|done]. apply list_elem_of_fmap. exists (c mod 32).
      split; [done|]. apply list_elem_of_In, in_seq.
      assert (c mod 32 < 32) by (apply Nat.mod_upper_bound; lia). lia.
    + apply Hlall; [|done]. by apply thread_indices_cover.
  - destruct Hor as [? | Hin]; [by left|].
    apply list_elem_of_fmap in Hin as (t & -> & _).
    destruct (Hlocal t) as (_ & _ & Hl). exact Hl.
Qed.

(** ** The softmax kernel: one block *)

Lemma fold_left_ext_in {A B} (f g : A → B → A) l :
  (∀ a x, x ∈ l → f a x = g a x) →
  ∀ a, fold_left f l a = fold_left g l a.
Proof.
  induction l as [|x l IH]; intros H a; simpl; [done|].
  rewrite H by left. apply IH. intros a' y Hy. apply H. by right.
Qed.

Lemma fold_store_seq (b : nat) (g : nat → float32) n :
  ∀ s d, fold_left (λ d' i, store d' (b + i) (g i)) (seq s n) d
         = write_cells (b + s) (map g (seq s n)) d.
Proof.
  induction n as [|n IH]; intros s d; simpl; [done|].
  rewrite IH. f_equal. lia.
Qed.

Lemma row_index_small r k i :
  (Z.of_nat (r * k + i) < 2 ^ 32)%Z → row_index r k i = r * k + i.
Proof.
  intros H. unfold row_index, u32.
  rewrite <- Nat2Z.inj_mul, <- Nat2Z.inj_add.
  rewrite Z.mod_small by lia. apply Nat2Z.id.
Qed.

Lemma softmax_block_eq expf mat tmp out k r d :
  (Z.of_nat (r * k + k) ≤ 2 ^ 32)%Z →
  mat + (r * k + k) ≤ tmp → out + (r * k + k) ≤ tmp →
  softmax_block expf mat tmp out k r d
  = write_cells (out + r * k)
      (map (λ i, F32.div (row_exp expf d mat k r i)
                         (row_sum expf d mat k r)) (seq 0 k))
      (store
         (write_cells (out + r * k)
            (map (row_exp expf d mat k r) (seq 0 k))
            (store d (tmp + r) (row_max d mat k r)))
         (tmp + r) (row_sum expf d mat k r)).
Proof.
  intros Hwrap Hmat Hout.
  assert (∀ i, i < k → row_index r k i = r * k + i) as Hidx.
  { intros i Hi. apply row_index_small. lia. }
  unfold softmax_block.
  assert (fold_left max_step
            (map (λ t, fold_left
                         (λ cur_max i,
                            max_step cur_max
                              (load d (mat + row_index r k i)))
                         (thread_indices t k) neg_FLT_MAX) (seq 0 32))
            neg_FLT_MAX
          = row_max d mat k r) as ->.
  { unfold row_max. f_equal. apply map_ext. intros t.
    apply fold_left_ext_in. intros a i Hi.
    by rewrite Hidx by (by eapply thread_indices_lt). }
  set (d1 := store d (tmp + r) (row_max d mat k r)).
  assert (∀ i, i < k →
            expf (F32.sub (load d1 (mat + row_index r k i))
                          (load d1 (tmp + r)))
            = row_exp expf d mat k r i) as Hx.
  { intros i Hi. unfold row_exp, d1. rewrite Hidx by done.
    rewrite load_store_eq, load_store_ne by lia. done. }
  assert (fold_left
            (λ d' i, store d' (out + row_index r k i)
                       (expf (F32.sub (load d1 (mat + row_index r k i))
                                      (load d1 (tmp + r)))))
            (seq 0 k) d1
          = write_cells (out + r * k)
              (map (row_exp expf d mat k r) (seq 0 k)) d1) as ->.
  { rewrite <- (Nat.add_0_r (out + r * k)), <- fold_store_seq.
    apply fold_left_ext_in. intros a i Hi.
    apply list_elem_of_In, in_seq in Hi.
    rewrite Hx, Hidx by lia. f_equal. lia. }
  assert (fold_left F32.add
            (map (λ t, fold_left
                         (λ sum i,
                            F32.add sum
                              (expf (F32.sub
                                       (load d1 (mat + row_index r k i))
                                       (load d1 (tmp + r)))))
                         (thread_indices t k) F32.zero) (seq 0 32))
            F32.zero
          = row_sum expf d mat k r) as ->.
  { unfold row_sum. f_equal. apply map_ext. intros t.
    apply fold_left_ext_in. intros a i Hi.
    by rewrite Hx by (by eapply thread_indices_lt). }
  set (d2 := write_cells (out + r * k)
               (map (row_exp expf d mat k r) (seq 0 k)) d1).
  set (d3 := store d2 (tmp + r) (row_sum expf d mat k r)).
  rewrite <- (Nat.add_0_r (out + r * k)) at 1. rewrite <- fold_store_seq.
  apply fold_left_ext_in. intros a i Hi.
  apply list_elem_of_In, in_seq in Hi.
  rewrite Hidx by lia. f_equal; [lia|]. f_equal.
  - unfold d3. rewrite load_store_ne by lia. unfold d2.
    replace (out + (r * k + i)) with (out + r * k + i) by lia.
    apply load_write_cells_inside.
    rewrite list_lookup_fmap, lookup_seq_lt by lia. done.
  - unfold d3. apply load_store_eq.
Qed.

Lemma row_max_ext d d' mat k r :
  (∀ i, i < k → load d' (mat + (r * k + i)) = load d (mat + (r * k + i))) →
  row_max d' mat k r = row_max d mat k r.
Proof.
  intros H. unfold row_max. f_equal. apply map_ext. intros t.
  apply fold_left_ext_in. intros a i Hi.
  by rewrite H by (by eapply thread_indices_lt).
Qed.

Lemma row_exp_ext expf d d' mat k r i :
  (∀ i, i < k → load d' (mat + (r * k + i)) = load d (mat + (r * k + i))) →
  i < k → row_exp expf d' mat k r i = row_exp expf d mat k r i.
Proof.
  intros H Hi. unfold row_exp. by rewrite H, (row_max_ext d d') by done.
Qed.

Lemma row_sum_ext expf d d' mat k r :
  (∀ i, i < k → load d' (mat + (r * k + i)) = load d (mat + (r * k + i))) →
  row_sum expf d' mat k r = row_sum expf d mat k r.
Proof.
  intros H. unfold row_sum. f_equal. apply map_ext. intros t.
  apply fold_left_ext_in. intros a i Hi.
  by rewrite (row_exp_ext expf d d') by (done || by eapply thread_indices_lt).
Qed.

(** What one block leaves in memory. *)
Lemma softmax_block_spec expf mat tmp out k r d :
  (Z.of_nat (r * k + k) ≤ 2 ^ 32)%Z →
  mat + (r * k + k) ≤ tmp → out + (r * k + k) ≤ tmp →
  (∀ i, i < k →
     load (softmax_block expf mat tmp out k r d) (out + (r * k + i))
     = F32.div (row_exp expf d mat k r i) (row_sum expf d mat k r))
  ∧ (∀ p, p ≠ tmp + r → ¬ (out + r * k ≤ p < out + r * k + k) →
       load (softmax_block expf mat tmp out k r d) p = load d p).
Proof.
  intros Hwrap Hmat Hout. rewrite softmax_block_eq by done. split.
  - intros i Hi. replace (out + (r * k + i)) with (out + r * k + i) by lia.
    apply load_write_cells_inside.
    rewrite list_lookup_fmap, lookup_seq_lt by lia. done.
  - intros p Hp Hrow.
    rewrite load_write_cells_outside
      by (rewrite length_map, length_seq; lia).
    rewrite load_store_ne by lia.
    rewrite load_write_cells_outside
      by (rewrite length_map, length_seq; lia).
    by rewrite load_store_ne by lia.
Qed.

(** ** The softmax kernel: the whole launch *)

Section SoftmaxLaunch.
Variable expf : float32 → float32.
Variables mat tmp out n k : nat.
Variable d0 : device.
Hypothesis Hwrap : (Z.of_nat (n * k) ≤ 2 ^ 32)%Z.
Hypothesis Hmat : mat + n * k ≤ tmp.
Hypothesis Hout : out + n * k ≤ tmp.
Hypothesis Halias : out = mat ∨ out + n * k ≤ mat ∨ mat + n * k ≤ out.

Local Abbreviation blocks_done := (softmax_blocks expf mat tmp out k d0).

Lemma blocks_done_invariant j :
  j ≤ n →
  (∀ r i, j ≤ r → r < n → i < k →
     load (blocks_done j) (mat + (r * k + i)) = load d0 (mat + (r * k + i)))
  ∧ (∀ r i, r < j → i < k →
       load (blocks_done j) (out + (r * k + i))
       = F32.div (row_exp expf d0 mat k r i) (row_sum expf d0 mat k r))
  ∧ (∀ p, p < tmp → ¬ (out ≤ p < out + j * k) →
       load (blocks_done j) p = load d0 p).
Proof.
  induction j as [|j IH]; intros Hj.
  - unfold softmax_blocks; simpl. split; [done|]. split; [intros; lia | done].
  - destruct IH as (I1 & I2 & I3); [lia|].
    assert (j * k + k ≤ n * k) as Hrow by nia.
    destruct (softmax_block_spec expf mat tmp out k j (blocks_done j))
      as (Hin & Hframe); [lia..|].
    assert (blocks_done (S j)
            = softmax_block expf mat tmp out k j (blocks_done j)) as ->.
    { unfold softmax_blocks. rewrite seq_S, fold_left_app. done. }
    assert (∀ i, i < k →
              load (blocks_done j) (mat + (j * k + i))
              = load d0 (mat + (j * k + i))) as Hmine
      by (intros i Hi; apply I1; lia).
    split; [|split].
    + intros r i Hr Hrn Hi.
      assert (r * k + k ≤ n * k) by nia.
      rewrite Hframe; [apply I1; lia | lia |].
      destruct Halias as [-> | [|]]; nia.
    + intros r i Hr Hi. destruct (decide (r = j)) as [-> | Hne].
      * rewrite Hin by done.
        by rewrite (row_exp_ext expf d0), (row_sum_ext expf d0) by done.
      * assert (r * k + k ≤ j * k) by nia.
        rewrite Hframe by lia. apply I2; lia.
    + intros p Hp Hnot. rewrite Hframe by lia. apply I3; [done|]. nia.
Qed.
End SoftmaxLaunch.

Lemma softmax_m_run expf m out n k d :
  shape m = [n; k] →
  softmax_m expf m out d
  = (Ok out,
     softmax_blocks expf (gpudata m) (brk d) (gpudata out) k
       {| cells := cells d; brk := brk d + prod [1; n] |} n).
Proof. intros Hs. unfold softmax_m. by rewrite Hs. Qed.

Lemma softmax_m_cells expf m out n k d :
  shape m = [n; k] → allocated d m → allocated d out → n * k ≤ size out →
  gpudata out = gpudata m ∨ gpudata out + n * k ≤ gpudata m
  ∨ gpudata m + n * k ≤ gpudata out →
  (Z.of_nat (n * k) ≤ 2 ^ 32)%Z →
  fst (softmax_m expf m out d) = Ok out
  ∧ (∀ r c, r < n → c < k →
       rd (snd (softmax_m expf m out d)) out (r * k + c)
       = F32.div (row_exp expf d (gpudata m) k r c)
                 (row_sum expf d (gpudata m) k r))
  ∧ (∀ p, p < brk d → ¬ (gpudata out ≤ p < gpudata out + n * k) →
       load (snd (softmax_m expf m out d)) p = load d p).
Proof.
  intros Hs Hm Ho Hroom Halias Hwrap.
  rewrite (softmax_m_run expf m out n k d Hs); cbn [fst snd].
  unfold allocated, size in *. rewrite Hs in Hm.
  unfold prod in Hm; simpl in Hm.
  set (d0 := {| cells := cells d; brk := brk d + prod [1; n] |}).
  assert (∀ p, load d0 p = load d p) as Hd0 by done.
  destruct (blocks_done_invariant expf (gpudata m) (brk d) (gpudata out)
              n k d0 Hwrap) with (j := n) as (_ & I2 & I3);
    [lia | unfold size in *; lia | done | done |].
  split; [done|]. split.
  - intros r c Hr Hc. unfold rd. rewrite I2 by done.
    by rewrite (row_exp_ext expf d d0), (row_sum_ext expf d d0) by done.
  - intros p Hp Hnot. by rewrite I3.
Qed.





(** In that example the row [[0; -1; 5]] has maximum 5. *)
Example row_max_example : row_max softmax_device 0 3 1 = f32 5.
Proof. vm_compute. reflexivity. Qed.



(** In place: with the identity for the intrinsic, the row [[1; 2; 3]]
    becomes [[-2/-3; -1/-3; 0/-3]]. *)
Example softmax_m_in_place_example :
  rd (snd (softmax_m id (array_at 0 [2; 3]) (array_at 0 [2; 3])
             softmax_device)) (array_at 0 [2; 3]) 1
  = F32.div (f32 (-1)) (f32 (-3)).
Proof. vm_compute. reflexivity. Qed.
